(** * The interview session controller of [frontend/script.js]

    A shallow embedding of the browser script that drives the interview:
    the script's variables and the DOM properties it reads and writes form
    one record, every event handler is a function on that record, and every
    [async] function is cut at its [await]s, the rest of the function being
    parked next to the request it waits for.  One [step] is one browser task
    together with the microtasks it releases. *)

From Stdlib Require Import ZArith NArith Ascii String DecimalString.
From stdpp Require Import base tactics option list numbers.

Local Open Scope N_scope.

(** ** Strings

    A JavaScript string is a sequence of UTF-16 code units. *)

Definition jsstring := list N.

Definition str (s : string) : jsstring :=
  map N_of_ascii (list_ascii_of_string s).

(** [WhiteSpace] and [LineTerminator] of ECMAScript: what
    [String.prototype.trim] strips.  All of them lie in the basic plane. *)
Definition is_whitespace (c : N) : bool :=
  (c =? 0x9) || (c =? 0xA) || (c =? 0xB) || (c =? 0xC) || (c =? 0xD)
  || (c =? 0x20) || (c =? 0xA0) || (c =? 0x1680)
  || ((0x2000 <=? c) && (c <=? 0x200A))
  || (c =? 0x2028) || (c =? 0x2029) || (c =? 0x202F) || (c =? 0x205F)
  || (c =? 0x3000) || (c =? 0xFEFF).

Fixpoint trimStart (t : jsstring) : jsstring :=
  match t with
  | c :: r => if is_whitespace c then trimStart r else t
  | [] => []
  end.

Definition trimEnd (t : jsstring) : jsstring := rev (trimStart (rev t)).

Definition trim (t : jsstring) : jsstring := trimEnd (trimStart t).

(** [!text]: the empty string is the only falsy string. *)
Definition falsy (t : jsstring) : bool :=
  match t with [] => true | _ => false end.

Definition jsstring_eqb (a b : jsstring) : bool := bool_decide (a = b).

(** ** Data *)

Inductive sender := user | ai.

Record Turn := { text : jsstring; from : sender }.

(** [element.style.display]: unset (the empty string), ['none'] or
    ['block'], the only values the script reads or writes. *)
Inductive css_display := DisplayUnset | DisplayNone | DisplayBlock.

(** The body of a start or chat response.  [interview_id] is the SERIAL key
    of the [interviews] table; [final_evaluation] may be missing. *)
Record ai_data := {
  interview_id : Z;
  response : jsstring;
  interview_over : bool;
  final_evaluation : option jsstring
}.

(** The recognizer: [start()] throws unless it is idle, and after [stop()]
    it stays busy until its [end] event. *)
Inductive rec_state := RecIdle | RecListening | RecStopping.

(** Who awaits [processAndDisplayAIResponse]. *)
Inductive caller := FromStart | FromSend.

(** What runs once [speakText] resolves: the rest of
    [processAndDisplayAIResponse] and of its caller, or the rest of
    [endInterview]. *)
Inductive cont :=
| KProcess (data : ai_data) (c : caller)
| KEndInterview.

(** What the script is waiting for. *)
Inductive pending :=
| PStart (name experience : jsstring)
| PChat (id : option Z) (txt : jsstring)
| PSpeak (txt : jsstring) (k : cont)
| PAudio (k : cont).

(** What the script does to the outside, in order. *)
Inductive effect :=
| EAddMessage (txt : jsstring) (who : sender)
| ESetInput (v : jsstring)
| ESetControls (disabled : bool)
| ERecStart
| ERecStop
| EFetchStart (name experience : jsstring)
| EFetchChat (id : option Z) (txt : jsstring)
| EFetchSpeak (txt : jsstring)
| EAudioPlay
| EAlert (msg : jsstring)
| EConsoleError (msg : jsstring)
| ENavigate (url : jsstring).

Record state := {
  interviewId : option Z;
  isAIReplying : bool;
  recognition : option rec_state;
  userName : jsstring;
  userExperience : jsstring;
  userInput : jsstring;
  userInput_disabled : bool;
  sendBtn_disabled : bool;
  speechBtn_disabled : bool;
  speechBtn_text : jsstring;
  status : jsstring;
  initialSetup_display : css_display;
  interviewPanel_display : css_display;
  downloadBtn_display : css_display;
  chatbox : list Turn;
  location : option jsstring;
  inflight : list pending;
  trace : list effect
}.

(** *** Field updates *)

Definition set_interviewId (v : option Z) (s : state) : state :=
  {| interviewId := v; isAIReplying := isAIReplying s;
     recognition := recognition s; userName := userName s;
     userExperience := userExperience s; userInput := userInput s;
     userInput_disabled := userInput_disabled s;
     sendBtn_disabled := sendBtn_disabled s;
     speechBtn_disabled := speechBtn_disabled s;
     speechBtn_text := speechBtn_text s; status := status s;
     initialSetup_display := initialSetup_display s;
     interviewPanel_display := interviewPanel_display s;
     downloadBtn_display := downloadBtn_display s; chatbox := chatbox s;
     location := location s; inflight := inflight s; trace := trace s |}.

Definition set_isAIReplying (v : bool) (s : state) : state :=
  {| interviewId := interviewId s; isAIReplying := v;
     recognition := recognition s; userName := userName s;
     userExperience := userExperience s; userInput := userInput s;
     userInput_disabled := userInput_disabled s;
     sendBtn_disabled := sendBtn_disabled s;
     speechBtn_disabled := speechBtn_disabled s;
     speechBtn_text := speechBtn_text s; status := status s;
     initialSetup_display := initialSetup_display s;
     interviewPanel_display := interviewPanel_display s;
     downloadBtn_display := downloadBtn_display s; chatbox := chatbox s;
     location := location s; inflight := inflight s; trace := trace s |}.

Definition set_recognition (v : option rec_state) (s : state) : state :=
  {| interviewId := interviewId s; isAIReplying := isAIReplying s;
     recognition := v; userName := userName s;
     userExperience := userExperience s; userInput := userInput s;
     userInput_disabled := userInput_disabled s;
     sendBtn_disabled := sendBtn_disabled s;
     speechBtn_disabled := speechBtn_disabled s;
     speechBtn_text := speechBtn_text s; status := status s;
     initialSetup_display := initialSetup_display s;
     interviewPanel_display := interviewPanel_display s;
     downloadBtn_display := downloadBtn_display s; chatbox := chatbox s;
     location := location s; inflight := inflight s; trace := trace s |}.

Definition set_userName (v : jsstring) (s : state) : state :=
  {| interviewId := interviewId s; isAIReplying := isAIReplying s;
     recognition := recognition s; userName := v;
     userExperience := userExperience s; userInput := userInput s;
     userInput_disabled := userInput_disabled s;
     sendBtn_disabled := sendBtn_disabled s;
     speechBtn_disabled := speechBtn_disabled s;
     speechBtn_text := speechBtn_text s; status := status s;
     initialSetup_display := initialSetup_display s;
     interviewPanel_display := interviewPanel_display s;
     downloadBtn_display := downloadBtn_display s; chatbox := chatbox s;
     location := location s; inflight := inflight s; trace := trace s |}.

Definition set_userExperience (v : jsstring) (s : state) : state :=
  {| interviewId := interviewId s; isAIReplying := isAIReplying s;
     recognition := recognition s; userName := userName s;
     userExperience := v; userInput := userInput s;
     userInput_disabled := userInput_disabled s;
     sendBtn_disabled := sendBtn_disabled s;
     speechBtn_disabled := speechBtn_disabled s;
     speechBtn_text := speechBtn_text s; status := status s;
     initialSetup_display := initialSetup_display s;
     interviewPanel_display := interviewPanel_display s;
     downloadBtn_display := downloadBtn_display s; chatbox := chatbox s;
     location := location s; inflight := inflight s; trace := trace s |}.

Definition set_userInput (v : jsstring) (s : state) : state :=
  {| interviewId := interviewId s; isAIReplying := isAIReplying s;
     recognition := recognition s; userName := userName s;
     userExperience := userExperience s; userInput := v;
     userInput_disabled := userInput_disabled s;
     sendBtn_disabled := sendBtn_disabled s;
     speechBtn_disabled := speechBtn_disabled s;
     speechBtn_text := speechBtn_text s; status := status s;
     initialSetup_display := initialSetup_display s;
     interviewPanel_display := interviewPanel_display s;
     downloadBtn_display := downloadBtn_display s; chatbox := chatbox s;
     location := location s; inflight := inflight s; trace := trace s |}.

Definition set_userInput_disabled (v : bool) (s : state) : state :=
  {| interviewId := interviewId s; isAIReplying := isAIReplying s;
     recognition := recognition s; userName := userName s;
     userExperience := userExperience s; userInput := userInput s;
     userInput_disabled := v; sendBtn_disabled := sendBtn_disabled s;
     speechBtn_disabled := speechBtn_disabled s;
     speechBtn_text := speechBtn_text s; status := status s;
     initialSetup_display := initialSetup_display s;
     interviewPanel_display := interviewPanel_display s;
     downloadBtn_display := downloadBtn_display s; chatbox := chatbox s;
     location := location s; inflight := inflight s; trace := trace s |}.

Definition set_sendBtn_disabled (v : bool) (s : state) : state :=
  {| interviewId := interviewId s; isAIReplying := isAIReplying s;
     recognition := recognition s; userName := userName s;
     userExperience := userExperience s; userInput := userInput s;
     userInput_disabled := userInput_disabled s; sendBtn_disabled := v;
     speechBtn_disabled := speechBtn_disabled s;
     speechBtn_text := speechBtn_text s; status := status s;
     initialSetup_display := initialSetup_display s;
     interviewPanel_display := interviewPanel_display s;
     downloadBtn_display := downloadBtn_display s; chatbox := chatbox s;
     location := location s; inflight := inflight s; trace := trace s |}.

Definition set_speechBtn_disabled (v : bool) (s : state) : state :=
  {| interviewId := interviewId s; isAIReplying := isAIReplying s;
     recognition := recognition s; userName := userName s;
     userExperience := userExperience s; userInput := userInput s;
     userInput_disabled := userInput_disabled s;
     sendBtn_disabled := sendBtn_disabled s; speechBtn_disabled := v;
     speechBtn_text := speechBtn_text s; status := status s;
     initialSetup_display := initialSetup_display s;
     interviewPanel_display := interviewPanel_display s;
     downloadBtn_display := downloadBtn_display s; chatbox := chatbox s;
     location := location s; inflight := inflight s; trace := trace s |}.

Definition set_speechBtn_text (v : jsstring) (s : state) : state :=
  {| interviewId := interviewId s; isAIReplying := isAIReplying s;
     recognition := recognition s; userName := userName s;
     userExperience := userExperience s; userInput := userInput s;
     userInput_disabled := userInput_disabled s;
     sendBtn_disabled := sendBtn_disabled s;
     speechBtn_disabled := speechBtn_disabled s; speechBtn_text := v;
     status := status s; initialSetup_display := initialSetup_display s;
     interviewPanel_display := interviewPanel_display s;
     downloadBtn_display := downloadBtn_display s; chatbox := chatbox s;
     location := location s; inflight := inflight s; trace := trace s |}.

Definition set_status (v : jsstring) (s : state) : state :=
  {| interviewId := interviewId s; isAIReplying := isAIReplying s;
     recognition := recognition s; userName := userName s;
     userExperience := userExperience s; userInput := userInput s;
     userInput_disabled := userInput_disabled s;
     sendBtn_disabled := sendBtn_disabled s;
     speechBtn_disabled := speechBtn_disabled s;
     speechBtn_text := speechBtn_text s; status := v;
     initialSetup_display := initialSetup_display s;
     interviewPanel_display := interviewPanel_display s;
     downloadBtn_display := downloadBtn_display s; chatbox := chatbox s;
     location := location s; inflight := inflight s; trace := trace s |}.

Definition set_initialSetup_display (v : css_display) (s : state) : state :=
  {| interviewId := interviewId s; isAIReplying := isAIReplying s;
     recognition := recognition s; userName := userName s;
     userExperience := userExperience s; userInput := userInput s;
     userInput_disabled := userInput_disabled s;
     sendBtn_disabled := sendBtn_disabled s;
     speechBtn_disabled := speechBtn_disabled s;
     speechBtn_text := speechBtn_text s; status := status s;
     initialSetup_display := v;
     interviewPanel_display := interviewPanel_display s;
     downloadBtn_display := downloadBtn_display s; chatbox := chatbox s;
     location := location s; inflight := inflight s; trace := trace s |}.

Definition set_interviewPanel_display (v : css_display) (s : state) : state :=
  {| interviewId := interviewId s; isAIReplying := isAIReplying s;
     recognition := recognition s; userName := userName s;
     userExperience := userExperience s; userInput := userInput s;
     userInput_disabled := userInput_disabled s;
     sendBtn_disabled := sendBtn_disabled s;
     speechBtn_disabled := speechBtn_disabled s;
     speechBtn_text := speechBtn_text s; status := status s;
     initialSetup_display := initialSetup_display s;
     interviewPanel_display := v;
     downloadBtn_display := downloadBtn_display s; chatbox := chatbox s;
     location := location s; inflight := inflight s; trace := trace s |}.

Definition set_downloadBtn_display (v : css_display) (s : state) : state :=
  {| interviewId := interviewId s; isAIReplying := isAIReplying s;
     recognition := recognition s; userName := userName s;
     userExperience := userExperience s; userInput := userInput s;
     userInput_disabled := userInput_disabled s;
     sendBtn_disabled := sendBtn_disabled s;
     speechBtn_disabled := speechBtn_disabled s;
     speechBtn_text := speechBtn_text s; status := status s;
     initialSetup_display := initialSetup_display s;
     interviewPanel_display := interviewPanel_display s;
     downloadBtn_display := v; chatbox := chatbox s; location := location s;
     inflight := inflight s; trace := trace s |}.

Definition set_chatbox (v : list Turn) (s : state) : state :=
  {| interviewId := interviewId s; isAIReplying := isAIReplying s;
     recognition := recognition s; userName := userName s;
     userExperience := userExperience s; userInput := userInput s;
     userInput_disabled := userInput_disabled s;
     sendBtn_disabled := sendBtn_disabled s;
     speechBtn_disabled := speechBtn_disabled s;
     speechBtn_text := speechBtn_text s; status := status s;
     initialSetup_display := initialSetup_display s;
     interviewPanel_display := interviewPanel_display s;
     downloadBtn_display := downloadBtn_display s; chatbox := v;
     location := location s; inflight := inflight s; trace := trace s |}.

Definition set_location (v : option jsstring) (s : state) : state :=
  {| interviewId := interviewId s; isAIReplying := isAIReplying s;
     recognition := recognition s; userName := userName s;
     userExperience := userExperience s; userInput := userInput s;
     userInput_disabled := userInput_disabled s;
     sendBtn_disabled := sendBtn_disabled s;
     speechBtn_disabled := speechBtn_disabled s;
     speechBtn_text := speechBtn_text s; status := status s;
     initialSetup_display := initialSetup_display s;
     interviewPanel_display := interviewPanel_display s;
     downloadBtn_display := downloadBtn_display s; chatbox := chatbox s;
     location := v; inflight := inflight s; trace := trace s |}.

Definition set_inflight (v : list pending) (s : state) : state :=
  {| interviewId := interviewId s; isAIReplying := isAIReplying s;
     recognition := recognition s; userName := userName s;
     userExperience := userExperience s; userInput := userInput s;
     userInput_disabled := userInput_disabled s;
     sendBtn_disabled := sendBtn_disabled s;
     speechBtn_disabled := speechBtn_disabled s;
     speechBtn_text := speechBtn_text s; status := status s;
     initialSetup_display := initialSetup_display s;
     interviewPanel_display := interviewPanel_display s;
     downloadBtn_display := downloadBtn_display s; chatbox := chatbox s;
     location := location s; inflight := v; trace := trace s |}.

Definition set_trace (v : list effect) (s : state) : state :=
  {| interviewId := interviewId s; isAIReplying := isAIReplying s;
     recognition := recognition s; userName := userName s;
     userExperience := userExperience s; userInput := userInput s;
     userInput_disabled := userInput_disabled s;
     sendBtn_disabled := sendBtn_disabled s;
     speechBtn_disabled := speechBtn_disabled s;
     speechBtn_text := speechBtn_text s; status := status s;
     initialSetup_display := initialSetup_display s;
     interviewPanel_display := interviewPanel_display s;
     downloadBtn_display := downloadBtn_display s; chatbox := chatbox s;
     location := location s; inflight := inflight s; trace := v |}.


(** ** Commands

    A synchronous stretch of the script is a function on states; [f >>> g]
    runs [f], then [g]. *)

Definition cmd := state -> state.

Notation "f >>> g" := (fun s : state => g (f s))
  (at level 62, right associativity, only parsing).

Definition when (b : bool) (f : cmd) : cmd := if b then f else id.

(** Truthiness of a variable that holds an object or [undefined]. *)
Definition defined {A} (o : option A) : bool :=
  match o with Some _ => true | None => false end.

Definition emit (e : effect) : cmd := fun s => set_trace (trace s ++ [e]) s.

(** Park a continuation until the browser settles what it waits for. *)
Definition await (p : pending) : cmd :=
  fun s => set_inflight (inflight s ++ [p]) s.

Definition alert (msg : jsstring) : cmd := emit (EAlert msg).

Definition console_error (msg : jsstring) : cmd := emit (EConsoleError msg).

Definition set_input (v : jsstring) : cmd := emit (ESetInput v) >>> set_userInput v.

Definition navigate (url : jsstring) : cmd :=
  emit (ENavigate url) >>> set_location (Some url).

(** *** The recognizer *)

Definition rec_stop (r : rec_state) : rec_state :=
  match r with RecListening => RecStopping | _ => r end.

Definition recognition_stop : cmd :=
  fun s => emit ERecStop (set_recognition (rec_stop <$> recognition s) s).

(** [recognition.start()]: [None] is the [InvalidStateError] of a recognizer
    that is already started. *)
Definition recognition_start (s : state) : option state :=
  match recognition s with
  | Some RecIdle => Some (emit ERecStart (set_recognition (Some RecListening) s))
  | _ => None
  end.

(** *** Template literals *)

Definition decimal (z : Z) : jsstring := str (NilZero.string_of_int (Z.to_int z)).

Definition template_id (id : option Z) : jsstring :=
  match id with Some z => decimal z | None => str "null" end.

Definition template_text (t : option jsstring) : jsstring :=
  match t with Some t => t | None => str "undefined" end.

Definition report_url (id : option Z) : jsstring :=
  (str "/api/report/" ++ template_id id)%list.

Definition evaluation_message (finalEvaluation : option jsstring) : jsstring :=
  (str "Interview Over. Final Evaluation: " ++ template_text finalEvaluation)%list.

Definition error_message : jsstring :=
  str "Sorry, an error occurred. Please try again.".

(** *** Core functions *)

Definition addMessage (t : jsstring) (who : sender) : cmd :=
  fun s => emit (EAddMessage t who)
             (set_chatbox (chatbox s ++ [{| text := t; from := who |}]) s).

Definition setControlsState (disabled : bool) : cmd :=
  emit (ESetControls disabled) >>>
  set_isAIReplying disabled >>>
  set_userInput_disabled disabled >>>
  set_sendBtn_disabled disabled >>>
  set_speechBtn_disabled disabled >>>
  set_status (if disabled then str "Status: AI is replying..."
              else str "Status: Idle") >>>
  fun s => when (defined (recognition s) && disabled) recognition_stop s.

(** [speakText] up to its first [await]: the request is sent and [k], what
    the caller does once the returned promise resolves, is parked. *)
Definition speakText (t : jsstring) (k : cont) : cmd :=
  emit (EFetchSpeak t) >>> await (PSpeak t k).

(** [endInterview] up to its [await]. *)
Definition endInterview (finalEvaluation : option jsstring) : cmd :=
  addMessage (evaluation_message finalEvaluation) ai >>>
  speakText (evaluation_message finalEvaluation) KEndInterview.

(** [endInterview] after its [await]. *)
Definition endInterview_resume : cmd :=
  setControlsState true >>> set_downloadBtn_display DisplayBlock.

(** [processAndDisplayAIResponse] up to its [await]. *)
Definition processAndDisplayAIResponse (data : ai_data) (c : caller) : cmd :=
  addMessage (response data) ai >>>
  speakText (response data) (KProcess data c).

(** [processAndDisplayAIResponse] after its [await]: [endInterview] is
    called and not awaited, so only its first stretch runs here. *)
Definition processAndDisplayAIResponse_resume (data : ai_data) : cmd :=
  when (interview_over data) (endInterview (final_evaluation data)).

(** The [finally] block of [sendMessage]. *)
Definition sendMessage_finally : cmd :=
  fun s => match downloadBtn_display s with
           | DisplayUnset | DisplayNone => setControlsState false s
           | DisplayBlock => s
           end.

(** The start handler after [await processAndDisplayAIResponse(data)]. *)
Definition startBtn_click_resume : cmd := setControlsState false.

(** Resolution of the promise of [speakText]: the awaiting function runs to
    its end, and then its awaiting caller does, all in microtasks. *)
Definition resume (k : cont) : cmd :=
  match k with
  | KProcess data c =>
      processAndDisplayAIResponse_resume data >>>
      match c with
      | FromStart => startBtn_click_resume
      | FromSend => sendMessage_finally
      end
  | KEndInterview => endInterview_resume
  end.

(** [speakText] once [/api/speak] has answered with status [ok], and once
    the request has failed. *)
Definition speakText_fulfilled (ok : bool) (k : cont) : cmd :=
  if ok then emit EAudioPlay >>> await (PAudio k)
  else console_error (str "Speech synthesis error:") >>> resume k.

Definition speakText_rejected (k : cont) : cmd :=
  console_error (str "Speech synthesis error:") >>> resume k.

Definition sendMessage : cmd :=
  fun s =>
    let userText := trim (userInput s) in
    if falsy userText || isAIReplying s then s
    else (addMessage userText user >>>
          set_input [] >>>
          setControlsState true >>>
          fun s => (emit (EFetchChat (interviewId s) userText) >>>
                    await (PChat (interviewId s) userText)) s) s.

Definition sendMessage_fulfilled (data : ai_data) : cmd :=
  processAndDisplayAIResponse data FromSend.

Definition sendMessage_rejected : cmd :=
  console_error (str "Error sending message:") >>>
  addMessage error_message ai >>>
  sendMessage_finally.

(** *** Event listeners *)

Definition startBtn_click : cmd :=
  fun s =>
    let name := trim (userName s) in
    let experience := trim (userExperience s) in
    if falsy name || falsy experience
    then alert (str "Please enter your name and experience.") s
    else (emit (EFetchStart name experience) >>>
          await (PStart name experience)) s.

Definition startBtn_click_fulfilled (data : ai_data) : cmd :=
  set_interviewId (Some (interview_id data)) >>>
  set_initialSetup_display DisplayNone >>>
  set_interviewPanel_display DisplayBlock >>>
  setControlsState true >>>
  processAndDisplayAIResponse data FromStart.

Definition startBtn_click_rejected : cmd :=
  console_error (str "Error starting interview:") >>>
  alert (str "Could not start interview. Check console for details.").

Definition userInput_keypress (key : jsstring) : cmd :=
  when (jsstring_eqb key (str "Enter")) sendMessage.

Definition speechBtn_click : cmd :=
  fun s =>
    if negb (defined (recognition s)) || isAIReplying s then s
    else match recognition_start s with
         | Some s' => s'
         | None => recognition_stop s
         end.

Definition downloadBtn_click : cmd :=
  fun s => navigate (report_url (interviewId s)) s.

Definition recognition_onstart : cmd :=
  set_status (str "Status: Listening...") >>>
  set_speechBtn_text [0xD83D; 0xDED1].

Definition recognition_onend : cmd :=
  set_status (str "Status: Idle") >>>
  set_speechBtn_text ([0xD83C; 0xDFA4] ++ str " Speak")%list.

Definition recognition_onresult (transcript : jsstring) : cmd :=
  set_input transcript >>> sendMessage.

Definition recognition_onerror (error : jsstring) : cmd :=
  set_status (str "Error: " ++ error)%list.

(** ** The event loop *)

(** How the browser settles a pending operation. *)
Inductive outcome :=
| Json (data : ai_data)   (* the request answered and its body parsed *)
| Rejected                (* the request failed, or its body did not parse *)
| Answered (ok : bool)    (* /api/speak answered, [ok] is [response.ok] *)
| Ended.                  (* the [ended] event of the audio element *)

Inductive event :=
| EditName (v : jsstring)
| EditExperience (v : jsstring)
| EditInput (v : jsstring)
| ClickStart
| ClickSend
| KeyPress (key : jsstring)
| ClickSpeech
| ClickDownload
| RecStarted
| RecEnded
| RecResult (transcript : jsstring)
| RecError (error : jsstring)
| Settle (i : nat) (o : outcome).

(** The continuation of a pending operation on an outcome; [None] when the
    outcome is not one this operation can have. *)
Definition settle (p : pending) (o : outcome) : option cmd :=
  match p, o with
  | PStart _ _, Json data => Some (startBtn_click_fulfilled data)
  | PStart _ _, Rejected => Some startBtn_click_rejected
  | PChat _ _, Json data => Some (sendMessage_fulfilled data)
  | PChat _ _, Rejected => Some sendMessage_rejected
  | PSpeak _ k, Answered ok => Some (speakText_fulfilled ok k)
  | PSpeak _ k, Rejected => Some (speakText_rejected k)
  | PAudio k, Ended => Some (resume k)
  | _, _ => None
  end.

(** Recognizer events only exist when the recognizer does. *)
Definition with_recognition (f : cmd) : cmd :=
  fun s => if defined (recognition s) then f s else s.

Definition step (s : state) (e : event) : state :=
  match e with
  | EditName v => set_userName v s
  | EditExperience v => set_userExperience v s
  | EditInput v => set_userInput v s
  | ClickStart => startBtn_click s
  | ClickSend => sendMessage s
  | KeyPress key => userInput_keypress key s
  | ClickSpeech => speechBtn_click s
  | ClickDownload => downloadBtn_click s
  | RecStarted => with_recognition recognition_onstart s
  | RecEnded =>
      with_recognition (set_recognition (Some RecIdle) >>> recognition_onend) s
  | RecResult transcript => with_recognition (recognition_onresult transcript) s
  | RecError error => with_recognition (recognition_onerror error) s
  | Settle i o =>
      match inflight s !! i with
      | Some p =>
          match settle p o with
          | Some k => k (set_inflight (delete i (inflight s)) s)
          | None => s
          end
      | None => s
      end
  end.

Definition run (s : state) (es : list event) : state := foldl step s es.

(** The page once the script has loaded.  What the markup supplies (the
    texts of the status line and of the speech button, inline styles) is
    taken empty. *)
Definition init (capable : bool) : state :=
  {| interviewId := None; isAIReplying := false;
     recognition := if capable then Some RecIdle else None;
     userName := []; userExperience := []; userInput := [];
     userInput_disabled := false; sendBtn_disabled := false;
     speechBtn_disabled := negb capable;
     speechBtn_text := [];
     status := if capable then []
               else str "Status: Speech recognition not supported in this browser.";
     initialSetup_display := DisplayUnset;
     interviewPanel_display := DisplayUnset;
     downloadBtn_display := DisplayUnset;
     chatbox := []; location := None; inflight := []; trace := [] |}.

(** ** Vocabulary of the statements *)

Definition controls_disabled (s : state) : Prop :=
  isAIReplying s = true /\ userInput_disabled s = true
  /\ sendBtn_disabled s = true /\ speechBtn_disabled s = true.

Definition controls_enabled (s : state) : Prop :=
  isAIReplying s = false /\ userInput_disabled s = false
  /\ sendBtn_disabled s = false /\ speechBtn_disabled s = false.

Definition is_user (t : Turn) : bool :=
  match from t with user => true | ai => false end.

Definition user_turns (s : state) : list Turn := List.filter is_user (chatbox s).

Definition count {A} (f : A -> bool) (l : list A) : nat :=
  length (List.filter f l).

(** A start or chat request that has not been answered yet. *)
Definition request (p : pending) : bool :=
  match p with PStart _ _ | PChat _ _ => true | _ => false end.

(** The start handler is somewhere between its request and its last
    statement. *)
Definition start_flow (p : pending) : bool :=
  match p with
  | PStart _ _ | PSpeak _ (KProcess _ FromStart) | PAudio (KProcess _ FromStart) => true
  | _ => false
  end.

(** [sendMessage] is somewhere between its request and its [finally]. *)
Definition chat_flow (p : pending) : bool :=
  match p with
  | PChat _ _ | PSpeak _ (KProcess _ FromSend) | PAudio (KProcess _ FromSend) => true
  | _ => false
  end.

(** The caller a response is delivered to. *)
Definition awaits_response (p : pending) : option caller :=
  match p with
  | PStart _ _ => Some FromStart
  | PChat _ _ => Some FromSend
  | _ => None
  end.

(** The outcomes on which the promise of [speakText] resolves, with what
    then runs: a failed synthesis request, or the end of playback. *)
Definition completes (p : pending) (o : outcome) : option cont :=
  match p, o with
  | PSpeak _ k, Rejected | PSpeak _ k, Answered false | PAudio k, Ended => Some k
  | _, _ => None
  end.

(** The event resolves the speech awaited by such a continuation. *)
Definition speech_done (s : state) (e : event) (f : cont -> bool) : bool :=
  match e with
  | Settle i o =>
      match inflight s !! i with
      | Some p => match completes p o with Some k => f k | None => false end
      | None => false
      end
  | _ => false
  end.

Definition is_KEndInterview (k : cont) : bool :=
  match k with KEndInterview => true | _ => false end.

(** The event is the end of the speech [endInterview] waits for. *)
Definition ends_interview (s : state) (e : event) : bool :=
  speech_done s e is_KEndInterview.

(** The event is the failure of a chat request. *)
Definition chat_fails (s : state) (e : event) : bool :=
  match e with
  | Settle i Rejected =>
      match inflight s !! i with Some (PChat _ _) => true | _ => false end
  | _ => false
  end.

(** The event delivers the response of a start request. *)
Definition fulfils_start (s : state) (e : event) : bool :=
  match e with
  | Settle i (Json _) =>
      match inflight s !! i with Some (PStart _ _) => true | _ => false end
  | _ => false
  end.

Fixpoint no_start_response (s : state) (es : list event) : Prop :=
  match es with
  | [] => True
  | e :: es => fulfils_start s e = false /\ no_start_response (step s e) es
  end.

Definition is_ClickStart (e : event) : bool :=
  match e with ClickStart => true | _ => false end.

(** Events that neither click the start button nor resolve a speech. *)
Definition quiet (e : event) : bool :=
  match e with
  | ClickStart | Settle _ Rejected | Settle _ (Answered false) | Settle _ Ended => false
  | _ => true
  end.


(** Endgame: [endInterview] has run to its end and no start handler is
    still under way. *)
Definition terminated (s : state) : Prop :=
  downloadBtn_display s = DisplayBlock
  /\ controls_disabled s
  /\ count start_flow (inflight s) = 0%nat.

(** No start handler under way, at most one [sendMessage] under way, and
    the controls disabled while it is. *)
Definition calm (s : state) : Prop :=
  count start_flow (inflight s) = 0%nat
  /\ (count chat_flow (inflight s) <= 1)%nat
  /\ (isAIReplying s = false -> count chat_flow (inflight s) = 0%nat).

(** Sample responses and pages for the examples. *)
Definition question : ai_data :=
  {| interview_id := 42; response := str "Tell me about recursion.";
     interview_over := false; final_evaluation := None |}.

Definition verdict : ai_data :=
  {| interview_id := 42; response := str "Good.";
     interview_over := true; final_evaluation := Some (str "Pass") |}.

Definition other_question : ai_data :=
  {| interview_id := 43; response := str "Tell me about recursion.";
     interview_over := false; final_evaluation := None |}.

Definition filled_in : list event :=
  [EditName (str "Ada"); EditExperience (str "5 years")].

(** The interview has started and its first question has been spoken. *)
Definition started : state :=
  run (init true)
    (filled_in ++ [ClickStart; Settle 0 (Json question); Settle 0 (Answered true);
                   Settle 0 Ended]).

Definition no_start_click (es : list event) : Prop :=
  forallb (fun e => negb (is_ClickStart e)) es = true.

(** The ways the one pending speech can come to its end: the synthesis
    request fails, or the audio plays to its end. *)
Definition speech_over (es : list event) : Prop :=
  es = [Settle 0 Rejected] \/ es = [Settle 0 (Answered false)]
  \/ es = [Settle 0 (Answered true); Settle 0 Ended].

(** The speech awaited by [k] is the only pending operation. *)
Definition speaking (k : cont) (s : state) : Prop :=
  (exists t, inflight s = [PSpeak t k]) \/ inflight s = [PAudio k].

(** *** Further vocabulary: records of effects, gating, blank pages *)

(** The texts of the chat requests in a record of effects, in order. *)
Definition chat_texts (tr : list effect) : list jsstring :=
  omap (fun e => match e with EFetchChat _ t => Some t | _ => None end) tr.

(** Every speech request comes right after the AI turn with the same text;
    [prev] is the effect before the first of [tr]. *)
Fixpoint shown_then_spoken (prev : option effect) (tr : list effect) : bool :=
  match tr with
  | [] => true
  | e :: rest =>
      match e with
      | EFetchSpeak t =>
          match prev with
          | Some (EAddMessage t' ai) => jsstring_eqb t t'
          | _ => false
          end
      | _ => true
      end && shown_then_spoken (Some e) rest
  end.

Definition is_rec_call (e : effect) : bool :=
  match e with ERecStart | ERecStop => true | _ => false end.

(** Events that invoke [sendMessage]. *)
Definition sends (e : event) : bool :=
  match e with ClickSend | KeyPress _ | RecResult _ => true | _ => false end.

(** Along the run, [sendMessage] is only invoked while the interview panel
    is shown. *)
Fixpoint sends_in_panel (s : state) (es : list event) : Prop :=
  match es with
  | [] => True
  | e :: es =>
      (sends e = true -> interviewPanel_display s = DisplayBlock)
      /\ sends_in_panel (step s e) es
  end.

Definition is_PStart (p : pending) : bool :=
  match p with PStart _ _ => true | _ => false end.

(** The page before and after the start of the interview. *)
Definition panels_follow_id (s : state) : Prop :=
  match interviewId s with
  | None => initialSetup_display s = DisplayUnset
            /\ interviewPanel_display s = DisplayUnset
  | Some _ => initialSetup_display s = DisplayNone
              /\ interviewPanel_display s = DisplayBlock
  end.

(** Before the start nothing but start requests is pending and the download
    button is as loaded. *)
Definition unstarted_is_idle (s : state) : Prop :=
  interviewId s = None ->
  downloadBtn_display s = DisplayUnset
  /\ count (fun p => negb (is_PStart p)) (inflight s) = 0%nat.

(** The state without its record of effects. *)
Definition forget_trace (s : state) : state := set_trace [] s.

(** The recognizer does not listen while the controls are disabled. *)
Definition deaf_while_replying (s : state) : Prop :=
  isAIReplying s = true -> recognition s <> Some RecListening.

(** The text field and the send button are disabled exactly while
    [isAIReplying]. *)
Definition flags_mirror (s : state) : Prop :=
  userInput_disabled s = isAIReplying s /\ sendBtn_disabled s = isAIReplying s.

Definition starts_clean (c : option N) : bool :=
  match c with Some c => negb (is_whitespace c) | None => true end.

(** The effect a record ends with, or [p] for the empty record. *)
Definition last_or (p : option effect) (tr : list effect) : option effect :=
  match list.last tr with Some e => Some e | None => p end.

(** *** Orderly use of the page *)

(** The event uses the page the way its panels allow: the start button is
    clicked only while the setup panel is not hidden and no start handler is
    under way, and [sendMessage] is invoked only while the interview panel is
    shown. *)
Definition orderly (s : state) (e : event) : Prop :=
  (is_ClickStart e = true ->
   initialSetup_display s <> DisplayNone
   /\ count start_flow (inflight s) = 0%nat)
  /\ (sends e = true -> interviewPanel_display s = DisplayBlock).

Fixpoint orderly_run (s : state) (es : list event) : Prop :=
  match es with
  | [] => True
  | e :: es => orderly s e /\ orderly_run (step s e) es
  end.

(** One handler at a time: at most one start handler or [sendMessage] is
    under way; before the start nothing but start requests is pending; after
    it the controls are disabled while a handler is under way. *)
Definition one_at_a_time (s : state) : Prop :=
  panels_follow_id s
  /\ (count start_flow (inflight s) + count chat_flow (inflight s) <= 1)%nat
  /\ (interviewId s = None ->
      count (fun p => negb (is_PStart p)) (inflight s) = 0%nat)
  /\ (interviewId s <> None -> isAIReplying s = false ->
      (count start_flow (inflight s) + count chat_flow (inflight s) = 0)%nat).

(** A second first question, for runs with two start requests. *)
Definition follow_up : ai_data :=
  {| interview_id := 43; response := str "And what about iteration?";
     interview_over := false; final_evaluation := None |}.

(** ** Proof tools *)

Arguments str : simpl never.
Arguments decimal : simpl never.
Arguments count : simpl never.

Ltac unfold_script :=
  unfold step, settle, with_recognition, recognition_onstart,
    recognition_onend, recognition_onresult, recognition_onerror,
    userInput_keypress, speechBtn_click, downloadBtn_click, startBtn_click,
    recognition_start, sendMessage_rejected, sendMessage_fulfilled,
    startBtn_click_fulfilled, startBtn_click_rejected, speakText_fulfilled,
    speakText_rejected, resume, sendMessage, sendMessage_finally,
    startBtn_click_resume, processAndDisplayAIResponse,
    processAndDisplayAIResponse_resume, endInterview, endInterview_resume,
    speakText, setControlsState, addMessage, recognition_stop, navigate,
    set_input, console_error, alert, await, emit, when in *.

(** Case analysis on the innermost scrutinee of the goal. *)
Ltac split_match :=
  match goal with
  | |- context [match ?x with _ => _ end] =>
      lazymatch x with
      | context [match _ with _ => _ end] => fail
      | _ => destruct x eqn:?
      end
  end.

Ltac script_cases :=
  unfold_script; cbn; rewrite ?andb_false_r, ?andb_true_r in *;
  repeat (split_match; cbn in *).

(** An effective send contradicts [isAIReplying]. *)
Ltac absurd_guard :=
  match goal with
  | Ha : isAIReplying ?s = true, H : _ || isAIReplying ?s = false |- _ =>
      rewrite Ha, orb_true_r in H; discriminate H
  | H : _ || true = false |- _ => rewrite orb_true_r in H; discriminate H
  end.

(** ** Strings *)

Lemma trimStart_whitespace t :
  forallb is_whitespace t = true -> trimStart t = [].
Proof.
  induction t as [|c t IH]; cbn [forallb trimStart]; [done|].
  intros [Hc Ht]%andb_prop. rewrite Hc. auto.
Qed.

Lemma trim_whitespace t : forallb is_whitespace t = true -> trim t = [].
Proof. intros H. unfold trim. by rewrite (trimStart_whitespace t H). Qed.

Lemma trimStart_nil_inv t : trimStart t = [] -> forallb is_whitespace t = true.
Proof.
  induction t as [|c t IH]; cbn [forallb trimStart]; [done|].
  destruct (is_whitespace c); [auto | discriminate].
Qed.

Lemma trimStart_idem t : trimStart (trimStart t) = trimStart t.
Proof.
  induction t as [|c t IH]; [done|]. cbn [trimStart].
  destruct (is_whitespace c) eqn:Hc; [done|]. cbn [trimStart]. by rewrite Hc.
Qed.

(** [trim] yields the empty string exactly on blank strings. *)
Lemma trim_nil_iff t : trim t = [] <-> forallb is_whitespace t = true.
Proof.
  split; [|apply trim_whitespace].
  unfold trim, trimEnd. intros H.
  apply (f_equal (@rev N)) in H. rewrite rev_involutive in H. cbn in H.
  apply trimStart_nil_inv in H.
  rewrite forallb_forall in H.
  destruct (trimStart t) as [|c r] eqn:E; [by apply trimStart_nil_inv|].
  assert (Hc : is_whitespace c = true).
  { apply H. apply in_rev. rewrite rev_involutive. by left. }
  pose proof (trimStart_idem t) as Hi. rewrite E in Hi.
  cbn [trimStart] in Hi. rewrite Hc in Hi.
  apply (f_equal (@length N)) in Hi. cbn [length] in Hi.
  assert (Hle : forall u, (length (trimStart u) <= length u)%nat).
  { clear. induction u as [|a u IH]; cbn; [lia|]. destruct (is_whitespace a); cbn; lia. }
  specialize (Hle r). lia.
Qed.

(** ** Counting pending operations *)

Lemma count_app {A} (f : A -> bool) l1 l2 :
  count f (l1 ++ l2) = (count f l1 + count f l2)%nat.
Proof. unfold count. by rewrite List.filter_app, length_app. Qed.

Lemma count_delete {A} (f : A -> bool) (l : list A) i p :
  l !! i = Some p ->
  count f l = ((if f p then 1 else 0) + count f (delete i l))%nat.
Proof.
  intros Hi. rewrite <- (take_drop_middle l i p Hi) at 1.
  rewrite delete_take_drop, !count_app.
  change (p :: drop (S i) l) with ([p] ++ drop (S i) l).
  rewrite count_app. unfold count at 2. cbn. destruct (f p); cbn; lia.
Qed.

Lemma count_zero_lookup {A} (f : A -> bool) (l : list A) i p :
  count f l = 0%nat -> l !! i = Some p -> f p = false.
Proof.
  intros H0 Hi. rewrite (count_delete f l i p Hi) in H0.
  destruct (f p); [lia | done].
Qed.

Lemma run_app s es1 es2 : run (run s es1) es2 = run s (es1 ++ es2).
Proof. unfold run. by rewrite foldl_app. Qed.

Lemma run_cons s e es : run s (e :: es) = run (step s e) es.
Proof. done. Qed.

(** ** Single handlers *)

Lemma sendMessage_replying s : isAIReplying s = true -> sendMessage s = s.
Proof. intros H. unfold sendMessage. rewrite H. by rewrite orb_true_r. Qed.

Lemma sendMessage_sends s :
  falsy (trim (userInput s)) = false -> isAIReplying s = false ->
  sendMessage s =
    (addMessage (trim (userInput s)) user >>> set_input [] >>>
     setControlsState true >>>
     emit (EFetchChat (interviewId s) (trim (userInput s))) >>>
     await (PChat (interviewId s) (trim (userInput s)))) s.
Proof.
  intros Ht Hr. unfold sendMessage. rewrite Ht, Hr. cbn [orb].
  by script_cases.
Qed.

(** The states [setControlsState] leaves behind. *)
Lemma setControlsState_controls b s :
  let s' := setControlsState b s in
  isAIReplying s' = b /\ userInput_disabled s' = b
  /\ sendBtn_disabled s' = b /\ speechBtn_disabled s' = b.
Proof. by script_cases. Qed.

(** Only the end of [endInterview] changes the display of the download
    button, and it reveals it. *)
Lemma downloadBtn_display_step s e :
  ends_interview s e = false ->
  downloadBtn_display (step s e) = downloadBtn_display s.
Proof.
  intros H. destruct e; unfold ends_interview, speech_done, completes in H;
    script_cases; simplify_eq; done.
Qed.

Lemma downloadBtn_display_revealed s e :
  ends_interview s e = true -> downloadBtn_display (step s e) = DisplayBlock.
Proof.
  intros H. destruct e; unfold ends_interview, speech_done, completes in H;
    script_cases; simplify_eq; done.
Qed.

(** Every step other than the delivery of a start response leaves
    [interviewId] alone. *)
Lemma interviewId_step s e :
  fulfils_start s e = false -> interviewId (step s e) = interviewId s.
Proof.
  intros H. destruct e; unfold fulfils_start in H;
    script_cases; simplify_eq; done.
Qed.

Lemma interviewId_run s es :
  no_start_response s es -> interviewId (run s es) = interviewId s.
Proof.
  revert s. induction es as [|e es IH]; intros s; [done|].
  intros [He Hes]. rewrite run_cons, IH by done. by apply interviewId_step.
Qed.

(** ** Blank input *)

(** C8. A Send-turn invocation whose input text is empty or consists only of
    whitespace does nothing: the state, and with it the message log, the
    pending requests and the record of effects, is unchanged, whichever way
    [sendMessage] is invoked (send button, Enter key). *)
Theorem sendMessage_blank_noop s :
  forallb is_whitespace (userInput s) = true ->
  sendMessage s = s
  /\ step s ClickSend = s
  /\ (forall key, step s (KeyPress key) = s).
Proof.
  intros H.
  assert (Hs : sendMessage s = s).
  { unfold sendMessage. by rewrite (trim_whitespace _ H). }
  split; [done|]. split; [done|].
  intros key. cbn [step]. unfold userInput_keypress, when.
  by destruct (jsstring_eqb key (str "Enter")).
Qed.

Lemma sendMessage_blank_noop_witness :
  forallb is_whitespace (userInput (step started (EditInput (str "   ")))) = true
  /\ sendMessage (step started (EditInput (str "   ")))
     = step started (EditInput (str "   ")).
Proof.
  split; [vm_compute; reflexivity|].
  apply (sendMessage_blank_noop (step started (EditInput (str "   ")))).
  vm_compute; reflexivity.
Defined.

(** ** Failure of the synthesis request *)

(** C7. When the synthesis request for a text fails (network error, or a
    response whose status is not a success), the adapter writes the failure
    to the console and its promise resolves in the same step: what awaited
    it runs at once and nothing stays parked for playback.  The adapter shows
    the user nothing: log, status line and location are as before and its
    only effect is the console entry. *)
Theorem speakText_failure_resolves s i t k o :
  inflight s !! i = Some (PSpeak t k) ->
  o = Rejected \/ o = Answered false ->
  let logged :=
    console_error (str "Speech synthesis error:")
      (set_inflight (delete i (inflight s)) s) in
  step s (Settle i o) = resume k logged
  /\ trace logged = trace s ++ [EConsoleError (str "Speech synthesis error:")]
  /\ inflight logged = delete i (inflight s)
  /\ chatbox logged = chatbox s
  /\ status logged = status s
  /\ location logged = location s
  /\ isAIReplying logged = isAIReplying s.
Proof.
  intros Hi Ho logged. split; [|done].
  cbn [step]. rewrite Hi. by destruct Ho as [-> | ->].
Qed.

Lemma speakText_failure_resolves_witness :
  let s := run (init true) (filled_in ++ [ClickStart; Settle 0 (Json question)]) in
  inflight s !! 0%nat
    = Some (PSpeak (response question) (KProcess question FromStart))
  /\ controls_enabled (step s (Settle 0 Rejected))
  /\ inflight (step s (Settle 0 Rejected)) = [].
Proof.
  intros s.
  pose proof (speakText_failure_resolves s 0 (response question)
                (KProcess question FromStart) Rejected eq_refl
                (or_introl eq_refl)) as [H _].
  split; [reflexivity|]. rewrite H.
  vm_compute. repeat split; reflexivity.
Defined.

(** ** The speech button *)

(** C9. A click on the speech button while [isAIReplying] is true
    (AwaitingResponse or Terminated), or without a recognizer, changes
    nothing: recognition is not started.  A click while the recognizer is
    already listening raises nothing either: [start()] throws, the handler
    catches it and stops the attempt under way. *)
Theorem speechBtn_click_guard s :
  (recognition s = None \/ isAIReplying s = true -> step s ClickSpeech = s)
  /\ (recognition s = Some RecListening -> isAIReplying s = false ->
      recognition_start s = None
      /\ step s ClickSpeech
         = emit ERecStop (set_recognition (Some RecStopping) s)).
Proof.
  split.
  - intros [H | H]; cbn [step]; unfold speechBtn_click; rewrite H; cbn;
      [done | by rewrite orb_true_r].
  - intros Hr Ha. cbn [step].
    unfold speechBtn_click, recognition_start, recognition_stop.
    by rewrite Hr, Ha.
Qed.

Lemma speechBtn_click_guard_witness :
  let busy := step started RecStarted in
  let listening := step started ClickSpeech in
  (step (init false) ClickSpeech = init false)
  /\ (recognition listening = Some RecListening
      /\ trace (step listening ClickSpeech) = trace listening ++ [ERecStop]
      /\ recognition (step listening ClickSpeech) = Some RecStopping).
Proof.
  intros busy listening. split.
  - apply (proj1 (speechBtn_click_guard (init false))). left. reflexivity.
  - split; [reflexivity|].
    destruct (proj2 (speechBtn_click_guard listening) eq_refl eq_refl) as [_ H].
    rewrite H. split; reflexivity.
Defined.

(** ** The download button *)

(** C4, as the script has it.  The download handler has no guard: a click
    navigates to [/api/report/] followed by [interviewId] whatever its
    value, and to [/api/report/null] while it is still [null].  What keeps
    the button out of reach is its display alone, which only the last
    stretch of [endInterview] changes. *)
Theorem downloadBtn_click_unguarded s :
  let s' := step s ClickDownload in
  location s' = Some (report_url (interviewId s))
  /\ trace s' = trace s ++ [ENavigate (report_url (interviewId s))]
  /\ (interviewId s = None -> location s' = Some (str "/api/report/null"))
  /\ (forall e, downloadBtn_display (step s e) <> downloadBtn_display s ->
        ends_interview s e = true).
Proof.
  intros s'. split; [done|]. split; [done|]. split.
  - intros H. subst s'. cbn [step]. unfold downloadBtn_click. by rewrite H.
  - intros e H. destruct (ends_interview s e) eqn:E; [done|].
    by rewrite downloadBtn_display_step in H.
Qed.

Lemma downloadBtn_click_unguarded_witness :
  interviewId (init true) = None
  /\ location (step (init true) ClickDownload) = Some (str "/api/report/null").
Proof.
  split; [reflexivity|].
  apply (downloadBtn_click_unguarded (init true)). reflexivity.
Defined.

(** C4, as the specification words it, fails: on the freshly loaded page,
    where [interviewId] is [null], a Download click is not a no-op and does
    navigate to the report endpoint. *)
Lemma downloadBtn_click_null_navigates :
  interviewId (init true) = None
  /\ step (init true) ClickDownload <> init true
  /\ location (init true) = None
  /\ location (step (init true) ClickDownload) = Some (str "/api/report/null").
Proof.
  split; [reflexivity|]. split; [|split; reflexivity].
  intros H. apply (f_equal location) in H. discriminate H.
Qed.

(** ** Download after termination *)

(** C5, as the script has it.  A Download click navigates to
    [/api/report/] followed by the current [interviewId]; the delivery of a
    start response stores the id of that response, in place of any earlier
    one; and no other event (chat turn, chat response or failure, end of a
    speech, termination) changes it.  So after a start response, and for as
    long as no further start response is delivered, Download navigates to
    the report of the id captured at that start. *)
Theorem download_uses_start_id s i name experience d es :
  inflight s !! i = Some (PStart name experience) ->
  no_start_response (step s (Settle i (Json d))) es ->
  let s' := run (step s (Settle i (Json d))) es in
  interviewId (step s (Settle i (Json d))) = Some (interview_id d)
  /\ interviewId s' = Some (interview_id d)
  /\ location (step s' ClickDownload)
     = Some (str "/api/report/" ++ decimal (interview_id d))
  /\ (forall t e, fulfils_start t e = false ->
        interviewId (step t e) = interviewId t).
Proof.
  intros Hi Hes s'.
  assert (H1 : interviewId (step s (Settle i (Json d))) = Some (interview_id d)).
  { cbn [step]. rewrite Hi. by script_cases. }
  assert (H2 : interviewId s' = Some (interview_id d)).
  { subst s'. by rewrite interviewId_run. }
  split; [done|]. split; [done|]. split.
  - cbn [step]. unfold downloadBtn_click, navigate, emit. cbn. by rewrite H2.
  - apply interviewId_step.
Qed.

Lemma download_uses_start_id_witness :
  let s := run (init true) (filled_in ++ [ClickStart]) in
  let es := [Settle 0 (Answered true); Settle 0 Ended; EditInput (str "It calls itself.");
             ClickSend; Settle 0 (Json verdict); Settle 0 Rejected; Settle 0 Rejected] in
  inflight s !! 0%nat = Some (PStart (str "Ada") (str "5 years"))
  /\ downloadBtn_display (run (step s (Settle 0 (Json question))) es) = DisplayBlock
  /\ location (step (run (step s (Settle 0 (Json question))) es) ClickDownload)
     = Some (str "/api/report/42").
Proof.
  intros s es. split; [reflexivity|]. split; [reflexivity|].
  apply (download_uses_start_id s 0 (str "Ada") (str "5 years") question es).
  - reflexivity.
  - vm_compute. repeat split; reflexivity.
Defined.

(** C5, as the specification words it, fails: [interviewId] is not written
    once only.  The start button is not guarded, so two clicks send two
    start requests; the response of the first sets the id to 42 and ends the
    interview, and Download would go to the report of 42; the response of
    the second, delivered after that, replaces the id by 43, and Download
    goes to the report of 43. *)
Lemma second_start_response_replaces_id :
  let ended :=
    run (init true)
      (filled_in ++ [ClickStart; ClickStart; Settle 0 (Json verdict);
                     Settle 1 Rejected; Settle 1 Rejected]) in
  let later := step ended (Settle 0 (Json other_question)) in
  downloadBtn_display ended = DisplayBlock
  /\ interviewId ended = Some 42%Z
  /\ location (step ended ClickDownload) = Some (str "/api/report/42")
  /\ interviewId later = Some 43%Z
  /\ location (step later ClickDownload) = Some (str "/api/report/43").
Proof. vm_compute. repeat split; reflexivity. Qed.

(** ** Failure of a chat request *)

(** C6. When a chat request fails (the request throws, or its body does not
    parse) and the interview is not terminated, the handler appends exactly
    one AI turn, the generic error text, re-enables the controls, leaves the
    session unterminated (the download button stays hidden) and issues no
    request: the failed turn is not sent again. *)
Theorem sendMessage_failure s i id t :
  inflight s !! i = Some (PChat id t) ->
  downloadBtn_display s <> DisplayBlock ->
  let s' := step s (Settle i Rejected) in
  chatbox s' = chatbox s ++ [{| text := error_message; from := ai |}]
  /\ controls_enabled s'
  /\ downloadBtn_display s' = downloadBtn_display s
  /\ inflight s' = delete i (inflight s)
  /\ trace s' = trace s ++ [EConsoleError (str "Error sending message:");
                            EAddMessage error_message ai; ESetControls false]
  /\ interviewId s' = interviewId s
  /\ userInput s' = userInput s.
Proof.
  intros Hi Hd s'. subst s'. cbn [step]. rewrite Hi. cbn [settle].
  unfold controls_enabled.
  script_cases; simplify_eq; rewrite <- ?app_assoc; by repeat split.
Qed.

Lemma sendMessage_failure_witness :
  let s := run started [EditInput (str "It calls itself."); ClickSend] in
  inflight s !! 0%nat = Some (PChat (Some 42%Z) (str "It calls itself."))
  /\ controls_disabled s
  /\ controls_enabled (step s (Settle 0 Rejected))
  /\ List.map text (chatbox (step s (Settle 0 Rejected)))
     = [str "Tell me about recursion."; str "It calls itself."; error_message].
Proof.
  intros s. split; [reflexivity|]. split; [repeat split; reflexivity|].
  destruct (sendMessage_failure s 0 (Some 42%Z) (str "It calls itself."))
    as (H1 & H2 & _); [reflexivity | discriminate |].
  split; [exact H2|]. rewrite H1. reflexivity.
Defined.

(** ** The text field after a send *)





(** ** Processing a response *)

(** A step that takes [isAIReplying] from true to false is the end of a
    speech or the failure of a chat request. *)
Lemma reenabling_step s e :
  isAIReplying s = true -> isAIReplying (step s e) = false ->
  speech_done s e (fun _ => true) = true \/ chat_fails s e = true.
Proof.
  intros Ha H. destruct e; unfold speech_done, chat_fails, completes;
    revert H; script_cases; intros; simplify_eq; auto;
    rewrite ?orb_true_r in *; congruence.
Qed.

(** While the speech of a response is the only pending operation, events
    that are neither its end nor a start click leave the controls disabled
    and the speech pending. *)
Lemma speaking_step k s e :
  quiet e = true -> controls_disabled s -> speaking k s ->
  controls_disabled (step s e) /\ speaking k (step s e).
Proof.
  intros Hq (Ha & Hb & Hc & Hd) Hs. unfold controls_disabled.
  destruct e as [v|v|v| | |key| | | | |tr|er|i o]; try discriminate Hq.
  12: {
    unfold speaking in *.
    destruct Hs as [[t Hs] | Hs]; cbn [step]; rewrite Hs;
      (destruct i as [|i]; cbn; [|by eauto 10]);
      destruct o as [| |[]|]; try discriminate Hq; cbn; rewrite ?Hs; eauto 10. }
  all: unfold speaking; script_cases; try absurd_guard;
    (split; [by repeat split | exact Hs]).
Qed.

Lemma speaking_run k s es :
  forallb quiet es = true -> controls_disabled s -> speaking k s ->
  controls_disabled (run s es) /\ speaking k (run s es).
Proof.
  revert s. induction es as [|e es IH]; intros s; [done|].
  cbn [forallb]. intros [He Hes]%andb_prop Hc Hs. rewrite run_cons.
  destruct (speaking_step k s e He Hc Hs). by apply IH.
Qed.

(** The delivery of a response, the first stretch of
    [processAndDisplayAIResponse]. *)
Lemma response_chatbox s i p c d :
  inflight s !! i = Some p -> awaits_response p = Some c ->
  chatbox (step s (Settle i (Json d)))
  = chatbox s ++ [{| text := response d; from := ai |}].
Proof.
  intros Hi Hc. cbn [step]. rewrite Hi. clear Hi.
  destruct p; try discriminate Hc; by script_cases.
Qed.

Lemma response_inflight s i p c d :
  inflight s !! i = Some p -> awaits_response p = Some c ->
  inflight (step s (Settle i (Json d)))
  = delete i (inflight s) ++ [PSpeak (response d) (KProcess d c)].
Proof.
  intros Hi Hc. cbn [step]. rewrite Hi. clear Hi.
  destruct p; cbn in Hc; simplify_eq; by script_cases.
Qed.

Lemma response_trace s i p c d :
  inflight s !! i = Some p -> awaits_response p = Some c ->
  trace (step s (Settle i (Json d)))
  = trace s
    ++ match c with
       | FromStart =>
           ESetControls true :: if defined (recognition s) then [ERecStop] else []
       | FromSend => []
       end
    ++ [EAddMessage (response d) ai; EFetchSpeak (response d)].
Proof.
  intros Hi Hc. cbn [step]. rewrite Hi. clear Hi.
  destruct p; cbn in Hc; simplify_eq; script_cases; rewrite <- ?app_assoc; done.
Qed.

Lemma response_disables s i p c d :
  inflight s !! i = Some p -> awaits_response p = Some c ->
  c = FromStart \/ controls_disabled s ->
  controls_disabled (step s (Settle i (Json d))).
Proof.
  intros Hi Hc. cbn [step]. rewrite Hi. unfold controls_disabled. clear Hi.
  destruct p; cbn in Hc; simplify_eq; intros [?|(?&?&?&?)]; try discriminate;
    script_cases; repeat split; first [reflexivity | assumption].
Qed.

(** The end of the speech of a response: the handler that awaited it
    re-enables the controls, [sendMessage] unless the download button is
    shown. *)
Lemma speech_end_enables d c t j q o :
  inflight t !! j = Some q -> completes q o = Some (KProcess d c) ->
  c = FromStart \/ downloadBtn_display t <> DisplayBlock ->
  controls_enabled (step t (Settle j o)).
Proof.
  intros Hj Hq Hcd. cbn [step]. rewrite Hj. unfold controls_enabled. clear Hj.
  destruct q as [| |tx k|k], o as [| |[]|]; cbn in Hq; simplify_eq;
    destruct Hcd as [-> | Hd]; script_cases;
    first [congruence | repeat split; reflexivity].
Qed.

(** The protocol of one handler.  When the response of a start or chat
    request is delivered, the handler appends exactly one AI turn, the
    response text, and then asks for its speech; nothing follows in that
    step.  The rest of the handler, with its re-enabling of the controls, is
    parked behind that speech: the controls are disabled once the step is
    over (always for a start response, and for a chat response whenever
    they were before), a step that re-enables them is the end of a speech
    or the failure of a chat request, and while this speech is the only
    pending operation no event short of its end or a new start click
    re-enables them.  When the speech ends, the controls are re-enabled in
    that step, unless [sendMessage] finds the interview terminated. *)
Theorem processAndDisplayAIResponse_protocol s i p c d :
  inflight s !! i = Some p ->
  awaits_response p = Some c ->
  let s' := step s (Settle i (Json d)) in
  let k := KProcess d c in
  chatbox s' = chatbox s ++ [{| text := response d; from := ai |}]
  /\ (exists pre,
        trace s' = trace s ++ pre
                   ++ [EAddMessage (response d) ai; EFetchSpeak (response d)]
        /\ forall x, In x pre -> x = ESetControls true \/ x = ERecStop)
  /\ inflight s' = delete i (inflight s) ++ [PSpeak (response d) k]
  /\ (c = FromStart \/ controls_disabled s -> controls_disabled s')
  /\ (forall t e, isAIReplying t = true -> isAIReplying (step t e) = false ->
        speech_done t e (fun _ => true) = true \/ chat_fails t e = true)
  /\ (forall es, inflight s = [p] -> c = FromStart \/ controls_disabled s ->
        forallb quiet es = true ->
        controls_disabled (run s' es) /\ speaking k (run s' es))
  /\ (forall t j q o, inflight t !! j = Some q -> completes q o = Some k ->
        c = FromStart \/ downloadBtn_display t <> DisplayBlock ->
        controls_enabled (step t (Settle j o))).
Proof.
  intros Hi Hc s' k.
  split; [by eapply response_chatbox|].
  split; [|split; [by eapply response_inflight|]; split;
             [by eapply response_disables|]; split; [|split]].
  - eexists. split; [by eapply response_trace|].
    intros x Hx. destruct c; [|destruct Hx].
    destruct Hx as [<- | Hx]; [by left|].
    destruct (defined (recognition s)); [|destruct Hx].
    destruct Hx as [<- | []]. by right.
  - apply reenabling_step.
  - intros es Hp Hcs Hes.
    apply speaking_run; [exact Hes | by eapply response_disables |].
    left. exists (response d). subst s'.
    rewrite (response_inflight s i p c d Hi Hc), Hp. rewrite Hp in Hi.
    by destruct i as [|[|?]].
  - intros t j q o. apply speech_end_enables.
Qed.

Lemma processAndDisplayAIResponse_protocol_witness :
  let s := run (init true) (filled_in ++ [ClickStart]) in
  let s' := step s (Settle 0 (Json question)) in
  inflight s !! 0%nat = Some (PStart (str "Ada") (str "5 years"))
  /\ chatbox s' = [{| text := str "Tell me about recursion."; from := ai |}]
  /\ controls_disabled (run s' [ClickSend; Settle 0 (Answered true); ClickSpeech])
  /\ controls_enabled (run s' [Settle 0 (Answered true); Settle 0 Ended]).
Proof.
  intros s s'.
  destruct (processAndDisplayAIResponse_protocol s 0
              (PStart (str "Ada") (str "5 years")) FromStart question
              eq_refl eq_refl) as (H1 & _ & _ & _ & _ & H6 & _).
  split; [reflexivity|]. split; [exact H1|]. split.
  - apply (H6 [ClickSend; Settle 0 (Answered true); ClickSpeech]);
      [reflexivity | left; reflexivity | reflexivity].
  - vm_compute. repeat split; reflexivity.
Defined.

(** C3.  Every response is to have its turn appended, then its speech
    requested, and the controls re-enabled only once that speech is over;
    [speakText] says so itself ("Wait for audio to finish before
    re-enabling controls").  Each handler keeps to this for its own
    response, but the start button is not guarded against a second click
    and a start handler re-enables the controls without looking at what
    else is under way.  So: two clicks send two start requests; both
    responses are delivered and both audios play, with the controls
    disabled; the first audio ends, its handler re-enables the controls,
    and the second response, whose turn is in the log, is still being
    played; a user turn is sent meanwhile. *)
Lemma second_start_enables_during_playback :
  let playing :=
    run (init true)
      (filled_in ++ [ClickStart; ClickStart; Settle 0 (Json question);
                     Settle 0 (Json follow_up); Settle 0 (Answered true);
                     Settle 0 (Answered true)]) in
  let during := step playing (Settle 0 Ended) in
  let typed := run during [EditInput (str "Still playing"); ClickSend] in
  inflight playing
  = [PAudio (KProcess question FromStart); PAudio (KProcess follow_up FromStart)]
  /\ controls_disabled playing
  /\ chatbox during
     = [{| text := response question; from := ai |};
        {| text := response follow_up; from := ai |}]
  /\ inflight during = [PAudio (KProcess follow_up FromStart)]
  /\ controls_enabled during
  /\ user_turns typed = [{| text := str "Still playing"; from := user |}]
  /\ inflight typed
     = [PAudio (KProcess follow_up FromStart);
        PChat (Some 43%Z) (str "Still playing")].
Proof. vm_compute. repeat split; reflexivity. Qed.

(** ** After termination *)

Lemma count_snoc {A} (f : A -> bool) l x :
  count f (l ++ [x]) = (count f l + if f x then 1 else 0)%nat.
Proof. rewrite count_app. unfold count at 2. cbn. by destruct (f x). Qed.

Lemma count_le {A} (f g h : A -> bool) l :
  (forall x, f x = true -> g x = true \/ h x = true) ->
  (count f l <= count g l + count h l)%nat.
Proof.
  intros Hf. unfold count. induction l as [|x l IH]; cbn; [lia|].
  specialize (Hf x).
  destruct (f x), (g x), (h x); cbn; try lia; destruct Hf; done.
Qed.

(** Once terminated, every event but a start click keeps the script
    terminated and appends no user turn. *)
Lemma terminated_step s e :
  terminated s -> is_ClickStart e = false ->
  terminated (step s e) /\ user_turns (step s e) = user_turns s.
Proof.
  intros (Hd & (Ha & Hb & Hc & Hd') & Hn) He.
  unfold terminated, controls_disabled, user_turns.
  destruct e as [v|v|v| | |key| | | | |tr|er|i o]; try discriminate He.
  12: {
    cbn [step]. destruct (inflight s !! i) as [p|] eqn:Hi; [|done].
    pose proof (count_zero_lookup start_flow _ _ _ Hn Hi) as Hp.
    pose proof (count_delete start_flow _ _ _ Hi) as Hcd.
    rewrite Hp, Hn in Hcd.
    destruct p as [| |tx k|k], o as [| |[]|]; try discriminate Hp;
      cbn [settle]; try done;
      try (destruct k as [dd [|]|]; try discriminate Hp);
      script_cases; try congruence;
      rewrite ?count_snoc, ?List.filter_app; cbn; rewrite ?app_nil_r;
      (split; [repeat split; first [assumption | reflexivity | lia] | done]). }
  all: script_cases; try absurd_guard;
    (split; [repeat split; first [assumption | reflexivity] | done]).
Qed.

Lemma terminated_run s es :
  terminated s -> no_start_click es ->
  terminated (run s es) /\ user_turns (run s es) = user_turns s.
Proof.
  unfold no_start_click. revert s.
  induction es as [|e es IH]; intros s Ht; [done|].
  cbn [forallb]. intros [He Hes]%andb_prop. rewrite run_cons.
  apply negb_true_iff in He.
  destruct (terminated_step s e Ht He) as [Ht' Hu].
  destruct (IH _ Ht' Hes) as [Ht'' Hu']. split; [done | congruence].
Qed.

(** The last stretch of [endInterview] terminates the script, provided no
    start handler is under way. *)
Lemma ends_interview_terminated s e :
  ends_interview s e = true -> count start_flow (inflight s) = 0%nat ->
  terminated (step s e).
Proof.
  intros He Hn. unfold terminated, controls_disabled.
  destruct e as [v|v|v| | |key| | | | |tr|er|i o]; try discriminate He.
  unfold ends_interview, speech_done in He. cbn [step].
  destruct (inflight s !! i) as [p|] eqn:Hi; [|discriminate He].
  pose proof (count_delete start_flow _ _ _ Hi) as Hcd. rewrite Hn in Hcd.
  destruct p as [| |tx k|k], o as [| |[]|]; try discriminate He;
    cbn in He; destruct k; try discriminate He;
    script_cases; repeat split; lia.
Qed.

(** A terminating first response: once its speech is over, only the speech
    of [endInterview] is pending, and the start handler has re-enabled the
    controls. *)
Lemma first_response_over s name experience d sp :
  inflight s = [PStart name experience] -> interview_over d = true ->
  speech_over sp ->
  let u := run s (Settle 0 (Json d) :: sp) in
  inflight u = [PSpeak (evaluation_message (final_evaluation d)) KEndInterview]
  /\ controls_enabled u.
Proof.
  intros Hs Hd Hsp u. subst u. unfold controls_enabled.
  destruct Hsp as [-> | [-> | ->]]; cbn [run foldl step];
    rewrite Hs; cbn [lookup list_lookup settle];
    script_cases; rewrite ?Hs in *; cbn in *; simplify_eq;
    rewrite ?Hd in *; try discriminate; by repeat split.
Qed.

(** Termination without a second start.  Once [endInterview] has run to its
    end while no start handler is under way (no start request pending, no
    start response being spoken), the download button is shown and the
    input, send and speech controls are disabled, and as long as the start
    button is not clicked again they stay so and no user turn is appended,
    whatever else happens.  This includes the interview that ends with its
    very first response: when the start request is the only pending
    operation and its response declares the interview over, the start
    handler re-enables the controls while the evaluation is spoken, and the
    end of that speech disables them for good. *)
Theorem terminated_stays_disabled :
  (forall s e es,
      ends_interview s e = true ->
      count start_flow (inflight s) = 0%nat ->
      no_start_click es ->
      let t := step s e in
      downloadBtn_display t = DisplayBlock
      /\ controls_disabled t
      /\ controls_disabled (run t es)
      /\ user_turns (run t es) = user_turns t)
  /\ (forall s name experience d sp1 sp2 es,
        inflight s = [PStart name experience] ->
        interview_over d = true ->
        speech_over sp1 -> speech_over sp2 ->
        no_start_click es ->
        let u := run s (Settle 0 (Json d) :: sp1) in
        let t := run u sp2 in
        controls_enabled u
        /\ downloadBtn_display t = DisplayBlock
        /\ controls_disabled (run t es)
        /\ user_turns (run t es) = user_turns t).
Proof.
  split.
  - intros s e es He Hn Hes t.
    pose proof (ends_interview_terminated s e He Hn) as Ht.
    destruct (terminated_run _ es Ht Hes) as [(_ & Hc & _) Hu].
    destruct Ht as (Hd & Hc' & _). done.
  - intros s name experience d sp1 sp2 es Hs Hd H1 H2 Hes u t.
    destruct (first_response_over s name experience d sp1 Hs Hd H1)
      as [Hfl Hen].
    fold u in Hfl, Hen. split; [done|].
    assert (Ht : terminated t).
    { subst t. destruct H2 as [-> | [-> | ->]].
      - apply ends_interview_terminated;
          [unfold ends_interview, speech_done | ]; by rewrite Hfl.
      - apply ends_interview_terminated;
          [unfold ends_interview, speech_done | ]; by rewrite Hfl.
      - rewrite run_cons.
        assert (Hpl : inflight (step u (Settle 0 (Answered true)))
                      = [PAudio KEndInterview]).
        { cbn [step]. rewrite Hfl. by script_cases. }
        apply ends_interview_terminated;
          [unfold ends_interview, speech_done | ]; by rewrite Hpl. }
    destruct (terminated_run _ es Ht Hes) as [(_ & Hc & _) Hu].
    destruct Ht as (Hdb & _). done.
Qed.

Lemma terminated_stays_disabled_witness :
  let s := run started [EditInput (str "It calls itself."); ClickSend;
                        Settle 0 (Json verdict); Settle 0 Rejected] in
  let es := [EditInput (str "One more thing"); ClickSend; KeyPress (str "Enter");
             RecResult (str "hello"); ClickSpeech; ClickDownload] in
  ends_interview s (Settle 0 Rejected) = true
  /\ controls_enabled s
  /\ controls_disabled (run (step s (Settle 0 Rejected)) es)
  /\ List.map text (user_turns (run (step s (Settle 0 Rejected)) es))
     = [str "It calls itself."].
Proof.
  intros s es.
  destruct (proj1 terminated_stays_disabled s (Settle 0 Rejected) es)
    as (_ & _ & Hc & Hu); [reflexivity | reflexivity | reflexivity |].
  split; [reflexivity|]. split; [repeat split; reflexivity|].
  split; [exact Hc|]. rewrite Hu. reflexivity.
Defined.

(** C1.  Once the session is terminated the controls are to stay disabled
    and no user turn is to be appended; [endInterview] says so itself where
    it disables them ("Disable all controls permanently"), and the [finally]
    block of [sendMessage] re-enables only while the download button is
    hidden.  The start handler ends with a [setControlsState(false)] that
    has no such check, and the start button is not guarded against a second
    click.  So: two clicks send two start requests; the response of the
    first ends the interview, [endInterview] runs to its end and the
    controls are disabled; the response of the second then re-enables them,
    and a user turn is appended. *)
Lemma second_start_reopens_terminated :
  let ended :=
    run (init true)
      (filled_in ++ [ClickStart; ClickStart; Settle 0 (Json verdict);
                     Settle 1 Rejected; Settle 1 Rejected]) in
  let reopened :=
    run ended [Settle 0 (Json other_question); Settle 0 Rejected] in
  let typed := run reopened [EditInput (str "Still here"); ClickSend] in
  downloadBtn_display ended = DisplayBlock
  /\ controls_disabled ended
  /\ controls_enabled reopened
  /\ user_turns ended = []
  /\ user_turns typed = [{| text := str "Still here"; from := user |}].
Proof. vm_compute. repeat split; reflexivity. Qed.

(** ** One request at a time *)

(** Without a start handler under way, no event but a start click lets a
    second [sendMessage] run beside the first. *)
Lemma calm_step s e :
  calm s -> is_ClickStart e = false -> calm (step s e).
Proof.
  intros (Hn & Hc & Ha) He. unfold calm.
  destruct e as [v|v|v| | |key| | | | |tr|er|i o]; try discriminate He.
  12: {
    cbn [step]. destruct (inflight s !! i) as [p|] eqn:Hi; [|done].
    pose proof (count_zero_lookup start_flow _ _ _ Hn Hi) as Hp.
    pose proof (count_delete start_flow _ _ _ Hi) as Hsd.
    pose proof (count_delete chat_flow _ _ _ Hi) as Hcd.
    rewrite Hp, Hn in Hsd.
    destruct p as [| |tx k|k], o as [| |[]|]; try discriminate Hp;
      cbn [settle]; try done;
      try (destruct k as [dd [|]|]; try discriminate Hp);
      cbn [chat_flow] in Hcd;
      script_cases; rewrite ?count_snoc; cbn;
      (split; [lia | split; [lia | intros Hr; try discriminate Hr; try lia]]).
    all: specialize (Ha Hr); lia. }
  all: script_cases;
    try (split; [assumption | split; [assumption | assumption]]);
    rewrite ?count_snoc; cbn;
    repeat match goal with
      | H : _ || _ = false |- _ => apply orb_false_elim in H; destruct H
      end;
    try (split; [lia | split; [|intros Hr; discriminate Hr]];
         match goal with H : isAIReplying _ = false |- _ => specialize (Ha H) end;
         lia).
Qed.

Lemma calm_run s es : calm s -> no_start_click es -> calm (run s es).
Proof.
  unfold no_start_click. revert s.
  induction es as [|e es IH]; intros s Hc; [done|].
  cbn [forallb]. intros [He Hes]%andb_prop. rewrite run_cons.
  apply IH; [|done]. apply calm_step; [done|]. by apply negb_true_iff.
Qed.

Lemma calm_requests s : calm s -> (count request (inflight s) <= 1)%nat.
Proof.
  intros (Hn & Hc & _).
  pose proof (count_le request start_flow chat_flow (inflight s)) as H.
  assert (count request (inflight s)
          <= count start_flow (inflight s) + count chat_flow (inflight s))%nat.
  { apply H. intros [| |? []|[]]; cbn; auto; discriminate. }
  lia.
Qed.

(** C2, as the specification words it, fails for the start button: a second
    click while the first start request is in flight sends a second one, so
    two requests are in flight at once. *)
Lemma second_start_click_sends :
  let s := run (init true) (filled_in ++ [ClickStart]) in
  inflight s = [PStart (str "Ada") (str "5 years")]
  /\ inflight (step s ClickStart)
     = [PStart (str "Ada") (str "5 years"); PStart (str "Ada") (str "5 years")]
  /\ count request (inflight (step s ClickStart)) = 2%nat.
Proof. vm_compute. repeat split; reflexivity. Qed.

(** ** The start button *)

(** A start click sends a request exactly when the name and the experience
    both hold something besides whitespace.  Otherwise its only effect is
    the alert: no request, and the page as it was. *)
Theorem startBtn_click_validates s :
  (forallb is_whitespace (userName s) = true
   \/ forallb is_whitespace (userExperience s) = true ->
   step s ClickStart = alert (str "Please enter your name and experience.") s)
  /\ (forallb is_whitespace (userName s) = false ->
      forallb is_whitespace (userExperience s) = false ->
      step s ClickStart
      = await (PStart (trim (userName s)) (trim (userExperience s)))
          (emit (EFetchStart (trim (userName s)) (trim (userExperience s))) s)).
Proof.
  split.
  - intros H. cbn [step]. unfold startBtn_click.
    destruct H as [H | H]; apply trim_whitespace in H; rewrite H; cbn;
      [done | by rewrite orb_true_r].
  - intros Hn He. cbn [step]. unfold startBtn_click.
    destruct (trim (userName s)) as [|a n] eqn:En.
    { apply trim_nil_iff in En. congruence. }
    destruct (trim (userExperience s)) as [|b x] eqn:Ex.
    { apply trim_nil_iff in Ex. congruence. }
    done.
Qed.

Lemma startBtn_click_validates_witness :
  let blank := run (init true) [EditName (str "Ada"); EditExperience (str "  ")] in
  let filled := run (init true) filled_in in
  (inflight (step blank ClickStart) = []
   /\ trace (step blank ClickStart)
      = [EAlert (str "Please enter your name and experience.")])
  /\ inflight (step filled ClickStart) = [PStart (str "Ada") (str "5 years")].
Proof.
  intros blank filled. split.
  - rewrite (proj1 (startBtn_click_validates blank));
      [split; reflexivity | right; reflexivity].
  - rewrite (proj2 (startBtn_click_validates filled)); reflexivity.
Defined.

(** A start request that is the only pending operation, answered by a first
    question: once the question has been spoken (or its synthesis has
    failed) the id of the response is stored, the setup panel is hidden and
    the interview panel shown, the question is the one turn added, nothing
    is pending and the controls are enabled. *)
Theorem start_first_question s name experience d sp :
  inflight s = [PStart name experience] ->
  interview_over d = false ->
  speech_over sp ->
  let u := run s (Settle 0 (Json d) :: sp) in
  interviewId u = Some (interview_id d)
  /\ initialSetup_display u = DisplayNone
  /\ interviewPanel_display u = DisplayBlock
  /\ chatbox u = chatbox s ++ [{| text := response d; from := ai |}]
  /\ inflight u = []
  /\ controls_enabled u
  /\ downloadBtn_display u = downloadBtn_display s.
Proof.
  intros Hs Hd Hsp u. subst u. unfold controls_enabled.
  destruct Hsp as [-> | [-> | ->]]; cbn [run foldl step];
    rewrite Hs; cbn [lookup list_lookup settle];
    script_cases; rewrite ?Hs in *; cbn in *; simplify_eq;
    rewrite ?Hd in *; try discriminate; by repeat split.
Qed.

Lemma start_first_question_witness :
  let s := run (init false) (filled_in ++ [ClickStart]) in
  let u := run s [Settle 0 (Json question); Settle 0 (Answered true); Settle 0 Ended] in
  inflight s = [PStart (str "Ada") (str "5 years")]
  /\ interviewId u = Some 42%Z
  /\ controls_enabled u.
Proof.
  intros s u. split; [reflexivity|].
  destruct (start_first_question s (str "Ada") (str "5 years") question
              [Settle 0 (Answered true); Settle 0 Ended])
    as (H1 & _ & _ & _ & _ & H6 & _);
    [reflexivity | reflexivity | right; right; reflexivity |].
  split; [exact H1 | exact H6].
Defined.

(** A failed start request (the request throws, or its body does not
    parse) writes to the console and alerts; apart from that and from the
    request being gone, the page is as it was: no id, no panel switched, no
    control touched.  A new click then sends a new request. *)
Theorem start_failure_leaves_page s i name experience :
  inflight s !! i = Some (PStart name experience) ->
  let s' := step s (Settle i Rejected) in
  forget_trace s' = forget_trace (set_inflight (delete i (inflight s)) s)
  /\ trace s'
     = trace s ++ [EConsoleError (str "Error starting interview:");
                   EAlert (str "Could not start interview. Check console for details.")]
  /\ (forallb is_whitespace (userName s) = false ->
      forallb is_whitespace (userExperience s) = false ->
      inflight (step s' ClickStart)
      = delete i (inflight s)
        ++ [PStart (trim (userName s)) (trim (userExperience s))]).
Proof.
  intros Hi s'.
  assert (Hs' : s' = startBtn_click_rejected
                       (set_inflight (delete i (inflight s)) s)).
  { subst s'. cbn [step]. by rewrite Hi. }
  rewrite Hs'. clear Hs' s'. split; [done|]. split.
  - unfold startBtn_click_rejected, console_error, alert, emit. cbn.
    by rewrite <- app_assoc.
  - intros Hn He.
    by rewrite (proj2 (startBtn_click_validates _)).
Qed.

Lemma start_failure_leaves_page_witness :
  let s := run (init true) (filled_in ++ [ClickStart]) in
  inflight s !! 0%nat = Some (PStart (str "Ada") (str "5 years"))
  /\ forget_trace (step s (Settle 0 Rejected)) = forget_trace (run (init true) filled_in)
  /\ inflight (run s [Settle 0 Rejected; ClickStart])
     = [PStart (str "Ada") (str "5 years")].
Proof.
  intros s.
  destruct (start_failure_leaves_page s 0 (str "Ada") (str "5 years") eq_refl)
    as (H1 & _ & H3).
  split; [reflexivity|]. split.
  - rewrite H1. reflexivity.
  - unfold run. cbn [foldl]. rewrite H3; reflexivity.
Defined.

(** ** The end of the interview *)



(** ** What is sent *)

Lemma trimStart_starts_clean t : starts_clean (head (trimStart t)) = true.
Proof.
  induction t as [|c t IH]; [done|]. cbn [trimStart].
  destruct (is_whitespace c) eqn:Hc; [done|]. cbn. by rewrite Hc.
Qed.

Lemma trimStart_suffix t : exists w, t = w ++ trimStart t.
Proof.
  induction t as [|c t [w IH]]; [by exists []|]. cbn [trimStart].
  destruct (is_whitespace c); [|by exists []].
  exists (c :: w). cbn. by rewrite <- IH.
Qed.

Lemma trimEnd_prefix t : exists w, t = trimEnd t ++ w.
Proof.
  unfold trimEnd. destruct (trimStart_suffix (rev t)) as [w Hw].
  exists (rev w). rewrite <- rev_app_distr, <- Hw. by rewrite rev_involutive.
Qed.

Lemma last_rev {A} (l : list A) : list.last (rev l) = head l.
Proof. destruct l as [|x l]; [done|]. cbn [rev]. by rewrite last_snoc. Qed.

Lemma trimEnd_ends_clean t : starts_clean (list.last (trimEnd t)) = true.
Proof. unfold trimEnd. rewrite last_rev. apply trimStart_starts_clean. Qed.

Lemma trim_starts_clean t : starts_clean (head (trim t)) = true.
Proof.
  unfold trim. destruct (trimEnd_prefix (trimStart t)) as [w Hw].
  pose proof (trimStart_starts_clean t) as H. rewrite Hw in H.
  by destruct (trimEnd (trimStart t)).
Qed.

(** A turn that is sent carries the input without the whitespace around it:
    the user turn appended and the body of the chat request hold the same
    text, which is not empty and neither starts nor ends with whitespace;
    the request carries the current [interviewId]. *)
Theorem sendMessage_sends_trimmed s :
  forallb is_whitespace (userInput s) = false ->
  isAIReplying s = false ->
  let sent := trim (userInput s) in
  chatbox (sendMessage s) = chatbox s ++ [{| text := sent; from := user |}]
  /\ inflight (sendMessage s) = inflight s ++ [PChat (interviewId s) sent]
  /\ sent <> []
  /\ starts_clean (head sent) = true
  /\ starts_clean (list.last sent) = true
  /\ controls_disabled (sendMessage s).
Proof.
  intros Hw Hr sent.
  assert (Hne : sent <> []).
  { intros E. apply trim_nil_iff in E. congruence. }
  assert (Hf : falsy (trim (userInput s)) = false).
  { fold sent. by destruct sent. }
  rewrite sendMessage_sends by done. fold sent. unfold controls_disabled.
  split; [by script_cases|]. split; [by script_cases|]. split; [done|].
  split; [apply trim_starts_clean|]. split; [apply trimEnd_ends_clean|].
  clearbody sent. clear. script_cases; by repeat split.
Qed.

Lemma sendMessage_sends_trimmed_witness :
  let s := step started (EditInput (str "  It calls itself. ")) in
  forallb is_whitespace (userInput s) = false
  /\ chatbox (sendMessage s)
     = chatbox s ++ [{| text := str "It calls itself."; from := user |}].
Proof.
  intros s. split; [reflexivity|].
  destruct (sendMessage_sends_trimmed s eq_refl eq_refl) as (H & _).
  rewrite H. reflexivity.
Defined.

(** ** The message log *)

Lemma chatbox_step s e : chatbox s `prefix_of` chatbox (step s e).
Proof.
  destruct e; script_cases; rewrite <- ?app_assoc;
    first [reflexivity | apply prefix_app_r; reflexivity].
Qed.

(** The message log only grows: through any events, the log of before is a
    prefix of the log of after, so a turn once appended stays where it is,
    with its text and sender. *)
Theorem chatbox_append_only s es :
  chatbox s `prefix_of` chatbox (run s es)
  /\ (forall i turn, chatbox s !! i = Some turn ->
        chatbox (run s es) !! i = Some turn).
Proof.
  assert (H : chatbox s `prefix_of` chatbox (run s es)).
  { revert s. induction es as [|e es IH]; intros s; [done|].
    rewrite run_cons. etrans; [apply chatbox_step | apply IH]. }
  split; [done|]. intros i turn Hi. by eapply prefix_lookup_Some.
Qed.

Lemma chatbox_append_only_witness :
  let es := [EditInput (str "It calls itself."); ClickSend; Settle 0 Rejected] in
  chatbox started !! 0%nat
    = Some {| text := str "Tell me about recursion."; from := ai |}
  /\ chatbox (run started es) !! 0%nat
     = Some {| text := str "Tell me about recursion."; from := ai |}
  /\ length (chatbox (run started es)) = 3%nat.
Proof.
  intros es. split; [reflexivity|]. split; [|reflexivity].
  apply (proj2 (chatbox_append_only started es)). reflexivity.
Defined.

(** ** Requests and turns *)

Lemma chat_texts_step s e :
  chat_texts (trace s) = List.map text (user_turns s) ->
  chat_texts (trace (step s e)) = List.map text (user_turns (step s e)).
Proof.
  unfold chat_texts, user_turns. intros H.
  destruct e; script_cases;
    rewrite ?omap_app, ?List.filter_app, ?List.map_app, ?H; cbn;
    rewrite ?app_nil_r; done.
Qed.

(** From the loaded page on, the chat requests sent and the user turns in
    the log correspond one to one, in order and with the same texts: no user
    turn without its request, no request without its turn. *)
Theorem chat_requests_match_user_turns capable es :
  chat_texts (trace (run (init capable) es))
  = List.map text (user_turns (run (init capable) es)).
Proof.
  assert (H : forall s, chat_texts (trace s) = List.map text (user_turns s) ->
                        chat_texts (trace (run s es))
                        = List.map text (user_turns (run s es))).
  { induction es as [|e es IH]; intros s Hs; [done|].
    rewrite run_cons. apply IH. by apply chat_texts_step. }
  by apply H.
Qed.

(** ** Speech *)

Lemma shown_then_spoken_app p l1 l2 :
  shown_then_spoken p (l1 ++ l2)
  = shown_then_spoken p l1 && shown_then_spoken (last_or p l1) l2.
Proof.
  revert p. induction l1 as [|e l1 IH]; intros p; [done|].
  cbn [app shown_then_spoken]. rewrite IH, andb_assoc. f_equal. f_equal.
  unfold last_or. change (e :: l1) with ([e] ++ l1). rewrite last_app.
  by destruct (list.last l1).
Qed.

Lemma jsstring_eqb_refl t : jsstring_eqb t t = true.
Proof. unfold jsstring_eqb. by apply bool_decide_eq_true. Qed.

Lemma shown_then_spoken_step s e :
  shown_then_spoken None (trace s) = true ->
  shown_then_spoken None (trace (step s e)) = true.
Proof.
  intros H. destruct e; script_cases; rewrite <- ?app_assoc; cbn [app];
    rewrite ?shown_then_spoken_app, ?H; cbn; rewrite ?jsstring_eqb_refl; done.
Qed.

(** From the loaded page on, the script never asks for the speech of a text
    it has not just appended to the log: in the record of its effects every
    speech request comes right after the AI turn with the same text.  (The
    generic error turn is the one AI turn that is not spoken.) *)
Theorem speech_follows_turn capable es :
  shown_then_spoken None (trace (run (init capable) es)) = true.
Proof.
  assert (H : forall s, shown_then_spoken None (trace s) = true ->
                        shown_then_spoken None (trace (run s es)) = true).
  { induction es as [|e es IH]; intros s Hs; [done|].
    rewrite run_cons. apply IH. by apply shown_then_spoken_step. }
  by apply H.
Qed.

(** ** The recognizer and the controls *)

Lemma deaf_while_replying_step s e :
  deaf_while_replying s -> deaf_while_replying (step s e).
Proof.
  unfold deaf_while_replying. intros H.
  destruct e; script_cases; intros; simplify_eq; try done;
    try (by apply H); try absurd_guard;
    repeat match goal with
      | Hb : _ || _ = false |- _ => apply orb_false_elim in Hb; destruct Hb
      end;
    try congruence;
    match goal with
    | |- context [recognition ?t] =>
        destruct (recognition t) as [[]|] eqn:Hr; cbn in *;
        first [done | congruence | exfalso; by apply H]
    end.
Qed.

(** Disabling the controls stops the recognizer, and the speech button does
    not start it while they are disabled: if it holds at some point that the
    recognizer does not listen while [isAIReplying] is true, as it does on
    the loaded page, it holds ever after. *)
Theorem recognizer_deaf_while_replying s es :
  deaf_while_replying s -> deaf_while_replying (run s es).
Proof.
  revert s. induction es as [|e es IH]; intros s Hs; [done|].
  rewrite run_cons. apply IH. by apply deaf_while_replying_step.
Qed.

Lemma recognizer_deaf_while_replying_witness :
  let es := filled_in ++ [ClickStart; Settle 0 (Json question);
                          Settle 0 (Answered true); Settle 0 Ended; ClickSpeech] in
  let sent := [EditInput (str "It calls itself."); ClickSend] in
  deaf_while_replying (init true)
  /\ recognition (run (init true) es) = Some RecListening
  /\ isAIReplying (run (init true) (es ++ sent)) = true
  /\ recognition (run (init true) (es ++ sent)) <> Some RecListening.
Proof.
  intros es sent.
  assert (H0 : deaf_while_replying (init true)) by (intros H; discriminate H).
  pose proof (recognizer_deaf_while_replying (init true) (es ++ sent) H0) as H.
  assert (Ha : isAIReplying (run (init true) (es ++ sent)) = true)
    by (vm_compute; reflexivity).
  split; [exact H0|]. split; [vm_compute; reflexivity|].
  split; [exact Ha | exact (H Ha)].
Defined.

Lemma flags_mirror_step s e : flags_mirror s -> flags_mirror (step s e).
Proof.
  unfold flags_mirror. intros [H1 H2].
  destruct e; script_cases; by split.
Qed.

(** From the loaded page on, the text field and the send button are
    disabled exactly while [isAIReplying] is true. *)
Theorem input_disabled_iff_replying capable es :
  flags_mirror (run (init capable) es).
Proof.
  assert (H : forall s, flags_mirror s -> flags_mirror (run s es)).
  { induction es as [|e es IH]; intros s Hs; [done|].
    rewrite run_cons. apply IH. by apply flags_mirror_step. }
  by apply H.
Qed.

Lemma no_recognizer_step s e :
  recognition s = None ->
  recognition (step s e) = None
  /\ count is_rec_call (trace (step s e)) = count is_rec_call (trace s).
Proof.
  intros H. destruct e; script_cases; rewrite ?H in *; cbn in *;
    try discriminate; (split; [done|]);
    rewrite <- ?app_assoc, ?count_app; unfold count; cbn; lia.
Qed.

(** Without recognition capability nothing ever reaches a recognizer:
    through any events the variable stays undefined, the script makes no
    [start()] or [stop()] call, and speech clicks and recognizer events
    change nothing.  The speech button itself does not stay disabled: the
    end of the first spoken question re-enables it with the other
    controls. *)
Theorem no_recognizer_ever es :
  let s := run (init false) es in
  recognition s = None
  /\ count is_rec_call (trace s) = 0%nat
  /\ step s ClickSpeech = s
  /\ (forall transcript, step s (RecResult transcript) = s)
  /\ speechBtn_disabled (init false) = true
  /\ (forall name experience d sp,
        inflight s = [PStart name experience] ->
        interview_over d = false -> speech_over sp ->
        speechBtn_disabled (run s (Settle 0 (Json d) :: sp)) = false).
Proof.
  intros s.
  assert (H : forall t, recognition t = None ->
                recognition (run t es) = None
                /\ count is_rec_call (trace (run t es))
                   = count is_rec_call (trace t)).
  { induction es as [|e es IH]; intros t Ht; [done|].
    rewrite run_cons. destruct (no_recognizer_step t e Ht) as [H1 H2].
    destruct (IH _ H1) as [H3 H4]. split; [done | congruence]. }
  destruct (H (init false) eq_refl) as [H1 H2]. fold s in H1, H2.
  split; [done|]. split; [done|]. split; [|split; [|split; [done|]]].
  - cbn [step]. unfold speechBtn_click. by rewrite H1.
  - intros transcript. cbn [step]. unfold with_recognition. by rewrite H1.
  - intros name experience d sp Hs Hd Hsp.
    by destruct (start_first_question s name experience d sp Hs Hd Hsp)
      as (_ & _ & _ & _ & _ & (_ & _ & _ & Hb) & _).
Qed.

Lemma no_recognizer_ever_witness :
  let s := run (init false) (filled_in ++ [ClickStart]) in
  inflight s = [PStart (str "Ada") (str "5 years")]
  /\ speechBtn_disabled s = true
  /\ speechBtn_disabled (run s [Settle 0 (Json question); Settle 0 Rejected]) = false.
Proof.
  intros s. split; [reflexivity|]. split; [reflexivity|].
  destruct (no_recognizer_ever (filled_in ++ [ClickStart]))
    as (_ & _ & _ & _ & _ & H).
  apply (H (str "Ada") (str "5 years") question [Settle 0 Rejected]);
    [reflexivity | reflexivity | left; reflexivity].
Defined.

(** ** Before and after the start *)

Lemma panels_follow_id_step s e : panels_follow_id s -> panels_follow_id (step s e).
Proof.
  unfold panels_follow_id. intros H.
  destruct e; script_cases; simplify_eq; cbn in *; try done;
    repeat match goal with
      | Hi : interviewId _ = _ |- _ => rewrite Hi in *
      end; done.
Qed.

Lemma unstarted_is_idle_step s e :
  (sends e = true -> interviewPanel_display s = DisplayBlock) ->
  panels_follow_id s -> unstarted_is_idle s -> unstarted_is_idle (step s e).
Proof.
  unfold panels_follow_id, unstarted_is_idle. intros Hg Hp Hu.
  destruct (interviewId s) as [id|] eqn:Hid.
  { intros Hn. destruct (fulfils_start s e) eqn:Hf.
    - exfalso. unfold fulfils_start in Hf.
      destruct e as [v|v|v| | |key| | | | |tr|er|i o]; try discriminate Hf.
      destruct o as [d| | |]; try discriminate Hf.
      destruct (inflight s !! i) as [[]|] eqn:Hi; try discriminate Hf.
      revert Hn. cbn [step]. rewrite Hi. by script_cases.
    - rewrite interviewId_step in Hn by done. congruence. }
  destruct Hp as [_ Hpanel]. destruct (Hu eq_refl) as [Hd Hc].
  destruct e as [v|v|v| | |key| | | | |tr|er|i o];
    try (specialize (Hg eq_refl); congruence).
  10: {
    cbn [step]. destruct (inflight s !! i) as [p|] eqn:Hi; [|by rewrite Hid].
    pose proof (count_zero_lookup _ _ _ _ Hc Hi) as Hp.
    pose proof (count_delete (fun p => negb (is_PStart p)) _ _ _ Hi) as Hcd.
    destruct p; try discriminate Hp. cbn in Hcd.
    destruct o; cbn [settle]; [by script_cases | | by rewrite Hid | by rewrite Hid].
    script_cases. intros _. split; [done | lia]. }
  all: script_cases; intros _; rewrite ?count_snoc; cbn; (split; [done | lia]).
Qed.

(** From the loaded page on, [interviewId] is set exactly when the setup
    panel is hidden and the interview panel shown.  And if [sendMessage] is
    only invoked while the interview panel is shown, a shown download
    button means that [interviewId] is set: Download then navigates to the
    report of an interview, never to [/api/report/null]. *)
Theorem download_shown_has_id capable es :
  let s := run (init capable) es in
  panels_follow_id s
  /\ (sends_in_panel (init capable) es ->
      downloadBtn_display s = DisplayBlock ->
      exists id, interviewId s = Some id
                 /\ location (step s ClickDownload)
                    = Some (str "/api/report/" ++ decimal id)).
Proof.
  intros s.
  assert (H : forall t, panels_follow_id t ->
                (panels_follow_id (run t es))
                /\ (sends_in_panel t es -> unstarted_is_idle t ->
                    unstarted_is_idle (run t es))).
  { induction es as [|e es IH]; intros t Hp; [done|].
    rewrite run_cons.
    destruct (IH _ (panels_follow_id_step t e Hp)) as [H1 H2].
    split; [done|]. intros [Hg Hs] Hu. apply H2; [done|].
    by apply unstarted_is_idle_step. }
  assert (Hp0 : panels_follow_id (init capable)) by done.
  assert (Hu0 : unstarted_is_idle (init capable)) by done.
  destruct (H _ Hp0) as [H1 H2]. split; [exact H1|].
  intros Hg Hd. specialize (H2 Hg Hu0). fold s in H2.
  destruct (interviewId s) as [id|] eqn:Hid.
  - exists id. split; [done|]. cbn [step].
    unfold downloadBtn_click, navigate, emit. cbn. by rewrite Hid.
  - destruct (H2 Hid) as [Hd' _]. congruence.
Qed.

Lemma download_shown_has_id_witness :
  let es := filled_in ++ [ClickStart; Settle 0 (Json verdict); Settle 0 Rejected;
                          Settle 0 Rejected] in
  sends_in_panel (init true) es
  /\ downloadBtn_display (run (init true) es) = DisplayBlock
  /\ location (step (run (init true) es) ClickDownload) = Some (str "/api/report/42").
Proof.
  intros es.
  assert (Hg : sends_in_panel (init true) es).
  { cbn. repeat split; intros H; discriminate H. }
  split; [exact Hg|]. split; [reflexivity|].
  destruct (proj2 (download_shown_has_id true es) Hg eq_refl) as (id & Hid & Hl).
  assert (id = 42%Z) as -> by (vm_compute in Hid; congruence).
  exact Hl.
Defined.

(** ** What the record of effects does not decide *)

Arguments trim : simpl never.

Lemma resume_forget k s :
  forget_trace (resume k s) = forget_trace (resume k (forget_trace s)).
Proof. unfold forget_trace. destruct k as [d []|]; by script_cases. Qed.

Lemma sendMessage_forget s :
  forget_trace (sendMessage s) = forget_trace (sendMessage (forget_trace s)).
Proof. unfold forget_trace. by script_cases. Qed.

(** Speech is best effort: whether the synthesis request fails, answers
    with an error status, or the audio plays to its end, the script ends up
    in the same state; only the record of effects tells the three apart. *)
Theorem speech_outcome_irrelevant s i t k :
  inflight s !! i = Some (PSpeak t k) ->
  let failed := step s (Settle i Rejected) in
  let refused := step s (Settle i (Answered false)) in
  let played :=
    run s [Settle i (Answered true); Settle (length (inflight s) - 1) Ended] in
  refused = failed
  /\ forget_trace played = forget_trace failed
  /\ inflight (step s (Settle i (Answered true)))
     = delete i (inflight s) ++ [PAudio k]
  /\ forget_trace (step s (Settle i (Answered true)))
     = forget_trace (set_inflight (delete i (inflight s) ++ [PAudio k]) s).
Proof.
  intros Hi failed refused played.
  assert (Hf : failed
    = resume k (console_error (str "Speech synthesis error:")
                  (set_inflight (delete i (inflight s)) s))).
  { subst failed. cbn [step]. by rewrite Hi. }
  assert (Hr : refused = failed).
  { subst refused. rewrite Hf. cbn [step]. by rewrite Hi. }
  assert (Hp1 : step s (Settle i (Answered true))
    = await (PAudio k) (emit EAudioPlay (set_inflight (delete i (inflight s)) s))).
  { cbn [step]. by rewrite Hi. }
  split; [done|]. split; [|split; by rewrite Hp1].
  subst played. unfold run. cbn [foldl]. rewrite Hp1, Hf.
  assert (Hlen : (length (inflight s) - 1)%nat = length (delete i (inflight s))).
  { rewrite length_delete; [done|]. by rewrite Hi. }
  rewrite Hlen. cbn [step]. unfold await at 1 2, emit at 1 2. cbn.
  rewrite list_lookup_middle by done. cbn [settle].
  rewrite resume_forget. symmetry. rewrite resume_forget. symmetry.
  f_equal. unfold forget_trace, await, emit, console_error. cbn.
  f_equal. rewrite delete_take_drop, take_app_length.
  rewrite drop_app_ge by (cbn; lia).
  replace (S (length (delete i (inflight s))) - length (delete i (inflight s)))%nat
    with 1%nat by lia.
  cbn. by rewrite app_nil_r.
Qed.

Lemma speech_outcome_irrelevant_witness :
  let s := run (init true) (filled_in ++ [ClickStart; Settle 0 (Json question)]) in
  inflight s !! 0%nat
    = Some (PSpeak (response question) (KProcess question FromStart))
  /\ forget_trace (run s [Settle 0 (Answered true); Settle 0 Ended])
     = forget_trace (step s (Settle 0 Rejected)).
Proof.
  intros s. split; [reflexivity|].
  destruct (speech_outcome_irrelevant s 0 (response question)
              (KProcess question FromStart) eq_refl) as (_ & H & _).
  exact H.
Defined.

(** ** Ways to submit *)

(** The Enter key submits exactly as the send button does and every other
    key does nothing; a recognized transcript is submitted at once, as if
    it had been typed and sent, with no step in between to edit or confirm
    it (the two differ in the record of effects only). *)
Theorem submit_ways_agree s :
  step s (KeyPress (str "Enter")) = step s ClickSend
  /\ (forall key, key <> str "Enter" -> step s (KeyPress key) = s)
  /\ (forall transcript, defined (recognition s) = true ->
        forget_trace (step s (RecResult transcript))
        = forget_trace (run s [EditInput transcript; ClickSend])).
Proof.
  split; [|split].
  - cbn [step]. unfold userInput_keypress. by rewrite jsstring_eqb_refl.
  - intros key Hk. cbn [step]. unfold userInput_keypress, jsstring_eqb.
    by rewrite bool_decide_eq_false_2.
  - intros transcript Hr. unfold run. cbn [foldl step].
    unfold with_recognition, recognition_onresult. rewrite Hr.
    rewrite sendMessage_forget. symmetry. rewrite sendMessage_forget.
    done.
Qed.

Lemma submit_ways_agree_witness :
  let s := step started ClickSpeech in
  defined (recognition s) = true
  /\ forget_trace (step s (RecResult (str " It calls itself. ")))
     = forget_trace (run s [EditInput (str " It calls itself. "); ClickSend]).
Proof.
  intros s. split; [reflexivity|].
  exact (proj2 (proj2 (submit_ways_agree s)) (str " It calls itself. ") eq_refl).
Defined.

(** ** What is never undone *)

Lemma interviewId_stays_set s e :
  interviewId s <> None -> interviewId (step s e) <> None.
Proof.
  intros H. destruct (fulfils_start s e) eqn:Hf.
  - unfold fulfils_start in Hf.
    destruct e as [v|v|v| | |key| | | | |tr|er|i o]; try discriminate Hf.
    destruct o as [d| | |]; try discriminate Hf.
    destruct (inflight s !! i) as [[]|] eqn:Hi; try discriminate Hf.
    cbn [step]. rewrite Hi. by script_cases.
  - by rewrite interviewId_step.
Qed.

Lemma downloadBtn_stays_shown s e :
  downloadBtn_display s = DisplayBlock ->
  downloadBtn_display (step s e) = DisplayBlock.
Proof.
  intros H. destruct (ends_interview s e) eqn:He.
  - by apply downloadBtn_display_revealed.
  - by rewrite downloadBtn_display_step.
Qed.

(** Nothing in the script goes back: through any events, further start
    clicks included, an [interviewId] that is set stays set (a later start
    response can only replace it), and a download button that is shown
    stays shown. *)
Theorem never_undone s es :
  (interviewId s <> None -> interviewId (run s es) <> None)
  /\ (downloadBtn_display s = DisplayBlock ->
      downloadBtn_display (run s es) = DisplayBlock).
Proof.
  revert s. induction es as [|e es IH]; intros s; [done|].
  rewrite run_cons. destruct (IH (step s e)) as [H1 H2]. split; intros H.
  - apply H1. by apply interviewId_stays_set.
  - apply H2. by apply downloadBtn_stays_shown.
Qed.

Lemma never_undone_witness :
  let s := run started [EditInput (str "It calls itself."); ClickSend;
                        Settle 0 (Json verdict); Settle 0 Rejected; Settle 0 Rejected] in
  let es := [EditName (str "Bob"); ClickStart; Settle 0 (Json other_question);
             Settle 0 Rejected] in
  downloadBtn_display s = DisplayBlock
  /\ interviewId s = Some 42%Z
  /\ interviewId (run s es) = Some 43%Z
  /\ downloadBtn_display (run s es) = DisplayBlock.
Proof.
  intros s es.
  assert (Hd : downloadBtn_display s = DisplayBlock) by (vm_compute; reflexivity).
  split; [exact Hd|]. split; [vm_compute; reflexivity|].
  split; [vm_compute; reflexivity|].
  exact (proj2 (never_undone s es) Hd).
Defined.

(** ** Pending operations *)

(** The script cancels nothing.  An event that settles nothing leaves every
    pending operation in place and parks at most one more behind them; an
    event that settles the operation at [i] removes that one alone, and
    parks at most one more. *)
Theorem inflight_step s e :
  exists added, (length added <= 1)%nat
    /\ match e with
       | Settle i o =>
           inflight (step s e) = inflight s ++ added
           \/ (is_Some (inflight s !! i)
               /\ inflight (step s e) = delete i (inflight s) ++ added)
       | _ => inflight (step s e) = inflight s ++ added
       end.
Proof.
  destruct e as [v|v|v| | |key| | | | |tr|er|i o].
  13: {
    cbn [step]. destruct (inflight s !! i) as [p|] eqn:Hi;
      [|exists []; split; [cbn; lia | left; by rewrite app_nil_r]].
    destruct (settle p o) as [k|] eqn:Hk;
      [|exists []; split; [cbn; lia | left; by rewrite app_nil_r]].
    destruct p as [| |tx k'|k'], o as [| |[]|]; cbn in Hk; simplify_eq;
      try (destruct k' as [d []|]);
      script_cases;
      first [ by (exists []; split; [cbn; lia | right; split; [eauto | by rewrite app_nil_r]])
            | by (eexists [_]; split; [cbn; lia | right; split; [eauto | reflexivity]]) ]. }
  all: script_cases;
    first [ by (exists []; split; [cbn; lia | by rewrite app_nil_r])
          | by (eexists [_]; split; [cbn; lia | reflexivity]) ].
Qed.

(** ** One request at a time, from the loaded page *)

Lemma count_chat_flow_unstarted l :
  count (fun p => negb (is_PStart p)) l = 0%nat -> count chat_flow l = 0%nat.
Proof.
  intros H.
  pose proof (count_le chat_flow (fun p => negb (is_PStart p))
                (fun p => negb (is_PStart p)) l) as Hle.
  assert (count chat_flow l
          <= count (fun p => negb (is_PStart p)) l
             + count (fun p => negb (is_PStart p)) l)%nat.
  { apply Hle. intros [| |? []|[]]; cbn; auto; discriminate. }
  lia.
Qed.

Lemma one_at_a_time_step s e :
  orderly s e -> one_at_a_time s -> one_at_a_time (step s e).
Proof.
  intros [Hstart Hsend] (Hp & Hle & Hnone & Hsome).
  pose proof (panels_follow_id_step s e Hp) as Hp'.
  split; [exact Hp'|]. clear Hp'.
  unfold panels_follow_id in Hp.
  destruct (interviewId s) as [id|] eqn:Hid.
  - (* started *)
    destruct Hp as [Hsetup Hpanel]. clear Hnone Hsend.
    assert (Hsome' : isAIReplying s = false ->
              (count start_flow (inflight s) + count chat_flow (inflight s) = 0)%nat)
      by (by apply Hsome).
    clear Hsome.
    destruct e as [v|v|v| | |key| | | | |tr|er|i o];
      try (destruct (Hstart eq_refl) as [Hx _]; congruence); clear Hstart.
    12: {
      cbn [step]. destruct (inflight s !! i) as [p|] eqn:Hi;
        [|rewrite Hid; repeat split; auto; discriminate].
      pose proof (count_delete start_flow _ _ _ Hi);
      pose proof (count_delete chat_flow _ _ _ Hi);
      pose proof (count_delete (fun p => negb (is_PStart p)) _ _ _ Hi).
      destruct (isAIReplying s) eqn:Ha;
        [clear Hsome' | specialize (Hsome' eq_refl)];
        destruct p as [| |tx k|k], o as [| |[]|]; cbn [settle];
        try (rewrite Hid, ?Ha; repeat split; auto; intros; congruence || lia);
        try (destruct k as [dd [|]|]);
        script_cases; rewrite ?Hid, ?Ha in *; rewrite ?count_snoc; cbn in *;
        repeat split; intros; try congruence; try lia. }
    all: script_cases; try absurd_guard; rewrite ?Hid in *;
      repeat match goal with
        | H : _ || _ = false |- _ => apply orb_false_elim in H; destruct H
        end;
      try match goal with
        | H : isAIReplying _ = false |- _ => specialize (Hsome' H)
        end;
      rewrite ?count_snoc; cbn;
      repeat split; intros; try congruence; try lia; auto.
  - (* not started *)
    destruct Hp as [Hsetup Hpanel]. specialize (Hnone eq_refl). clear Hsome.
    pose proof (count_chat_flow_unstarted _ Hnone) as Hchat.
    destruct e as [v|v|v| | |key| | | | |tr|er|i o];
      try (specialize (Hsend eq_refl); congruence); clear Hsend.
    10: {
      clear Hstart.
      cbn [step]. destruct (inflight s !! i) as [p|] eqn:Hi;
        [|rewrite Hid; repeat split; auto; intros; congruence].
      pose proof (count_delete start_flow _ _ _ Hi);
      pose proof (count_delete chat_flow _ _ _ Hi);
      pose proof (count_delete (fun p => negb (is_PStart p)) _ _ _ Hi).
      pose proof (count_zero_lookup _ _ _ _ Hnone Hi) as Hps.
      destruct p; try discriminate Hps.
      destruct o as [d| |ok|]; cbn [settle];
        try (rewrite Hid; repeat split; auto; intros; congruence);
        script_cases; rewrite ?Hid in *; rewrite ?count_snoc; cbn in *;
        repeat split; intros; try congruence; try lia. }
    4: {
      destruct (Hstart eq_refl) as [_ H0].
      script_cases; rewrite ?Hid in *; rewrite ?count_snoc; cbn;
        repeat split; intros; try congruence; try lia. }
    all: clear Hstart; script_cases; rewrite ?Hid in *;
      repeat split; intros; try congruence; try lia; auto.
Qed.

Lemma one_at_a_time_run s es :
  orderly_run s es -> one_at_a_time s -> one_at_a_time (run s es).
Proof.
  revert s. induction es as [|e es IH]; intros s; [done|].
  intros [He Hes] Hs. rewrite run_cons. apply IH; [done|].
  by apply one_at_a_time_step.
Qed.

Lemma one_at_a_time_requests s :
  one_at_a_time s -> (count request (inflight s) <= 1)%nat.
Proof.
  intros (_ & Hle & _).
  assert (count request (inflight s)
          <= count start_flow (inflight s) + count chat_flow (inflight s))%nat.
  { apply count_le. intros [| |? []|[]]; cbn; auto; discriminate. }
  lia.
Qed.

(** C2, as the script has it.  A Send-turn invocation while [isAIReplying]
    is true does nothing: no request, no turn, nothing queued, whether it
    comes from the send button, the Enter key or a recognized transcript
    (which only lands in the text field).  The start button has no such
    guard: every click with a name and an experience sends a start request,
    whatever is pending.  At most one start or chat request is in flight at
    a time, first, from the loaded page, for as long as the start button is
    clicked only while the setup panel is not hidden and no start handler is
    under way and [sendMessage] is invoked only while the interview panel is
    shown; and second, from any state in which no start handler is under
    way, at most one [sendMessage] is under way and the controls are
    disabled while one is, for as long as the start button is not
    clicked. *)
Theorem sendMessage_guard :
  (forall s, isAIReplying s = true ->
     sendMessage s = s
     /\ step s ClickSend = s
     /\ (forall key, step s (KeyPress key) = s)
     /\ (forall transcript,
           chatbox (step s (RecResult transcript)) = chatbox s
           /\ inflight (step s (RecResult transcript)) = inflight s))
  /\ (forall capable es, orderly_run (init capable) es ->
        (count request (inflight (run (init capable) es)) <= 1)%nat)
  /\ (forall s es, calm s -> no_start_click es ->
        calm (run s es) /\ (count request (inflight (run s es)) <= 1)%nat)
  /\ (forall s,
        falsy (trim (userName s)) = false ->
        falsy (trim (userExperience s)) = false ->
        inflight (step s ClickStart)
        = inflight s ++ [PStart (trim (userName s)) (trim (userExperience s))]).
Proof.
  split; [|split; [|split]].
  - intros s Ha. pose proof (sendMessage_replying s Ha) as Hs.
    split; [done|]. split; [done|]. split.
    + intros key. cbn [step]. unfold userInput_keypress, when.
      by destruct (jsstring_eqb key (str "Enter")).
    + intros transcript. cbn [step].
      unfold with_recognition, recognition_onresult.
      destruct (defined (recognition s)); [|done].
      rewrite sendMessage_replying by done. done.
  - intros capable es Hes. apply one_at_a_time_requests.
    apply one_at_a_time_run; [done|].
    unfold one_at_a_time, panels_follow_id, count. cbn.
    repeat split; intros; first [done | lia].
  - intros s es Hc Hes. pose proof (calm_run s es Hc Hes) as H.
    split; [done | by apply calm_requests].
  - intros s Hn He. cbn [step]. unfold startBtn_click.
    rewrite Hn, He. done.
Qed.

Lemma sendMessage_guard_witness :
  let s := run started [EditInput (str "It calls itself."); ClickSend] in
  let es := [EditInput (str "again"); ClickSend; KeyPress (str "Enter");
             Settle 0 (Json question); ClickSend; Settle 0 Rejected] in
  let page := filled_in ++ [ClickStart; Settle 0 (Json question); Settle 0 Rejected;
                            EditInput (str "It calls itself."); ClickSend;
                            ClickSend; KeyPress (str "Enter")] in
  isAIReplying s = true
  /\ step s ClickSend = s
  /\ calm s
  /\ (count request (inflight (run s es)) <= 1)%nat
  /\ orderly_run (init true) page
  /\ (count request (inflight (run (init true) page)) <= 1)%nat.
Proof.
  intros s es page.
  destruct sendMessage_guard as (H1 & H2 & H3 & _).
  assert (Hc : calm s).
  { unfold calm. vm_compute. repeat split; intros; lia || discriminate. }
  assert (Ho : orderly_run (init true) page).
  { vm_compute. repeat split; intros; congruence. }
  split; [reflexivity|]. split; [apply (H1 s); reflexivity|]. split; [exact Hc|].
  split; [apply (H3 s es); [exact Hc | reflexivity]|].
  split; [exact Ho | exact (H2 true page Ho)].
Defined.
